(** * Auto-Analyst: query normaliser, orchestrator shim, validator and tracker

    A shallow embedding of [agent.py], [utils.py] and [tracker.py] together
    with the properties the specification states about them.

    Python values are modelled as follows.
    - [str]: Rocq [string]; a character is a code point below 256 (the
      Latin-1 block of Unicode), and the character tables below are CPython's
      tables restricted to that block.
    - exceptions: the error monad [py].
    - [re] patterns: a small regular-expression syntax with a backtracking
      matcher that follows the priorities of CPython's engine (greedy
      quantifiers, ordered alternation).
    - [float]: the rational a binary64 value denotes, every operation being
      the exact operation followed by rounding to nearest, ties to even. *)

From Stdlib Require Import String Ascii List Bool NArith ZArith Lia.
From Stdlib Require Import QArith Qround Qpower Qreduction Lqa.
From Stdlib Require Import SpecFloat.
Close Scope Q_scope.
Import ListNotations.
Local Open Scope list_scope.
Local Open Scope string_scope.

(** ** Exceptions *)

Inductive exn : Type :=
| ValueError
| IndexError
| ReError
| ZeroDivisionError.

Inductive py (A : Type) : Type :=
| Ok (a : A)
| Raise (e : exn).
Arguments Ok {A} a.
Arguments Raise {A} e.

Definition bind {A B : Type} (m : py A) (f : A -> py B) : py B :=
  match m with
  | Ok a => f a
  | Raise e => Raise e
  end.

Notation "x <- m ;; f" := (bind m (fun x => f))
  (at level 61, m at next level, right associativity).

(** ** Strings *)

Module PyStr.

Definition code (c : ascii) : N := N_of_ascii c.

Definition between (lo hi : N) (c : ascii) : bool :=
  ((lo <=? code c) && (code c <=? hi))%N.

(** [str.isspace] on one character; also the class [\s] and the set that
    [str.strip()] and [str.split()] remove. *)
Definition isspace (c : ascii) : bool :=
  between 9 13 c || between 28 32 c || (code c =? 133)%N || (code c =? 160)%N.

(** The class [\d]: decimal digits. *)
Definition isdecimal (c : ascii) : bool := between 48 57 c.

(** Alphabetic characters ([str.isalpha]). *)
Definition isalpha (c : ascii) : bool :=
  between 65 90 c || between 97 122 c
  || (code c =? 170)%N || (code c =? 181)%N || (code c =? 186)%N
  || between 192 214 c || between 216 246 c || between 248 255 c.

(** Characters with a numeric value that are not decimal digits:
    superscript one, two, three and the vulgar fractions. *)
Definition isnumeric_extra (c : ascii) : bool :=
  (code c =? 178)%N || (code c =? 179)%N || (code c =? 185)%N || between 188 190 c.

(** The class [\w]: alphanumeric or underscore. *)
Definition isword (c : ascii) : bool :=
  isalpha c || isdecimal c || isnumeric_extra c || (code c =? 95)%N.

(** The class [.] without DOTALL: anything but a line feed. *)
Definition isdot (c : ascii) : bool := negb (code c =? 10)%N.

Definition isupper (c : ascii) : bool :=
  between 65 90 c || between 192 214 c || between 216 222 c.

Definition lower_char (c : ascii) : ascii :=
  if isupper c then ascii_of_N (code c + 32) else c.

(** [s.lower()] *)
Fixpoint lower (s : string) : string :=
  match s with
  | EmptyString => EmptyString
  | String c s' => String (lower_char c) (lower s')
  end.

(** [s.lstrip()] *)
Fixpoint lstrip (s : string) : string :=
  match s with
  | EmptyString => EmptyString
  | String c s' => if isspace c then lstrip s' else s
  end.

(** [s.rstrip()] *)
Fixpoint rstrip (s : string) : string :=
  match s with
  | EmptyString => EmptyString
  | String c s' =>
      match rstrip s' with
      | EmptyString => if isspace c then EmptyString else String c EmptyString
      | r => String c r
      end
  end.

(** [s.strip()] *)
Definition strip (s : string) : string := rstrip (lstrip s).

(** [s.startswith(p)] *)
Definition startswith (s p : string) : bool := prefix p s.

(** [p in s] *)
Fixpoint contains (p s : string) : bool :=
  match s with
  | EmptyString => prefix p s
  | String _ s' => prefix p s || contains p s'
  end.

(** [s.replace(old, new)] for a non-empty [old]: occurrences are found from
    the left and do not overlap.  [skip] counts the characters of an
    occurrence that are still to be passed over. *)
Fixpoint replace_from (old new : string) (skip : nat) (s : string) : string :=
  match s with
  | EmptyString => EmptyString
  | String c s' =>
      match skip with
      | S k => replace_from old new k s'
      | O =>
          if prefix old s
          then new ++ replace_from old new (String.length old - 1) s'
          else String c (replace_from old new 0 s')
      end
  end.

Definition replace (s old new : string) : string := replace_from old new 0 s.

(** [s.split()]: the maximal runs of non-whitespace characters.  [cur] is the
    run being read. *)
Fixpoint split_from (cur : string) (s : string) : list string :=
  match s with
  | EmptyString =>
      match cur with
      | EmptyString => []
      | _ => [cur]
      end
  | String c s' =>
      if isspace c
      then match cur with
           | EmptyString => split_from EmptyString s'
           | _ => cur :: split_from EmptyString s'
           end
      else split_from (cur ++ String c EmptyString) s'
  end.

Definition split (s : string) : list string := split_from EmptyString s.

(** [s[:n]] for [n >= 0] *)
Definition take (n : nat) (s : string) : string := substring 0 n s.

(** [sep.join(l)] *)
Fixpoint join (sep : string) (l : list string) : string :=
  match l with
  | [] => EmptyString
  | [x] => x
  | x :: l' => x ++ sep ++ join sep l'
  end.

(** [s in l] for a list of strings *)
Definition mem (s : string) (l : list string) : bool := existsb (String.eqb s) l.

End PyStr.

(** ** Regular expressions *)

Module Re.
Import PyStr.

Inductive cclass : Type :=
| Word    (* \w *)
| Space   (* \s *)
| Digit   (* \d *)
| Dot.    (* .  *)

Definition in_class (k : cclass) : ascii -> bool :=
  match k with
  | Word => isword
  | Space => isspace
  | Digit => isdecimal
  | Dot => isdot
  end.

Inductive regex : Type :=
| Bol                      (* ^        *)
| Lit (l : string)         (* literal  *)
| Plus (k : cclass)        (* k+       *)
| Seq (r1 r2 : regex)      (* r1 r2    *)
| Alt (r1 r2 : regex)      (* r1|r2    *)
| Opt (r : regex)          (* (?:r)?   *)
| Group (r : regex).       (* (r)      *)

Coercion Lit : string >-> regex.

Declare Scope re_scope.
Delimit Scope re_scope with re.
Bind Scope re_scope with regex.
Notation "r1 >> r2" := (Seq r1 r2) (at level 60, right associativity) : re_scope.
Notation "r1 <|> r2" := (Alt r1 r2) (at level 55, right associativity) : re_scope.

(** [chop l s]: [s] without its prefix [l], when [l] is a prefix of [s]. *)
Fixpoint chop (l s : string) : option string :=
  match l with
  | EmptyString => Some s
  | String a l' =>
      match s with
      | String b s' => if Ascii.eqb a b then chop l' s' else None
      | EmptyString => None
      end
  end.

Section Matcher.
Context {A : Type}.

(** Greedy repetition: the longest run is tried first and given back one
    character at a time while the rest of the pattern fails. *)
Fixpoint star (p : ascii -> bool) (pos : nat) (s : string)
         (k : nat -> string -> option A) : option A :=
  match s with
  | String c s' =>
      if p c
      then match star p (S pos) s' k with
           | Some x => Some x
           | None => k pos s
           end
      else k pos s
  | EmptyString => k pos s
  end.

Definition plus (p : ascii -> bool) (pos : nat) (s : string)
           (k : nat -> string -> option A) : option A :=
  match s with
  | String c s' => if p c then star p (S pos) s' k else None
  | EmptyString => None
  end.

(** [run r pos s caps k]: match [r] against [s], the text from offset
    [pos] on, then hand the offset reached, the text left and the groups
    closed so far to [k], the rest of the pattern. *)
Fixpoint run (r : regex) (pos : nat) (s : string) (caps : list string)
         (k : nat -> string -> list string -> option A) : option A :=
  match r with
  | Bol => if Nat.eqb pos 0 then k pos s caps else None
  | Lit l =>
      match chop l s with
      | Some s' => k (pos + String.length l) s' caps
      | None => None
      end
  | Plus c => plus (in_class c) pos s (fun pos' s' => k pos' s' caps)
  | Seq r1 r2 => run r1 pos s caps (fun pos1 s1 caps1 => run r2 pos1 s1 caps1 k)
  | Alt r1 r2 =>
      match run r1 pos s caps k with
      | Some x => Some x
      | None => run r2 pos s caps k
      end
  | Opt r1 =>
      match run r1 pos s caps k with
      | Some x => Some x
      | None => k pos s caps
      end
  | Group r1 =>
      run r1 pos s caps
          (fun pos' s' caps' => k pos' s' (caps' ++ [take (pos' - pos) s])%list)
  end.
End Matcher.

(** A match object: where the match ends, the text after it, and the
    groups in order. *)
Record match_object : Type := MkMatch {
  m_end : nat;
  m_rest : string;
  m_groups : list string
}.

(** The match of [r] that starts at offset [pos], [s] being the text from
    that offset on. *)
Definition match_at (r : regex) (pos : nat) (s : string) : option match_object :=
  run r pos s [] (fun e rest caps => Some (MkMatch e rest caps)).

(** [re.match(r, s)] *)
Definition re_match (r : regex) (s : string) : option match_object :=
  match_at r 0 s.

(** [a, b = m.groups()] *)
Definition groups2 (m : match_object) : py (string * string) :=
  match m_groups m with
  | [a; b] => Ok (a, b)
  | _ => Raise ValueError
  end.

(** [m.group(i)] for [i >= 1] *)
Definition group (m : match_object) (i : nat) : py string :=
  match nth_error (m_groups m) (i - 1) with
  | Some g => Ok g
  | None => Raise IndexError
  end.

(** Replacement templates: literal text and group references [\i]. *)
Inductive piece : Type :=
| Text (s : string)
| Ref (i : nat).

Fixpoint expand (tmpl : list piece) (m : match_object) : py string :=
  match tmpl with
  | [] => Ok EmptyString
  | Text t :: tmpl' => rest <- expand tmpl' m ;; Ok (t ++ rest)
  | Ref i :: tmpl' =>
      match nth_error (m_groups m) (i - 1) with
      | Some g => rest <- expand tmpl' m ;; Ok (g ++ rest)
      | None => Raise ReError
      end
  end.

(** [re.sub(r, tmpl, s)]: every match found from the left is replaced by the
    expanded template; matches do not overlap.  [skip] counts the characters
    of the last match that are still to be passed over.  After an empty match
    the character at that offset is copied and the scan moves on. *)
Fixpoint sub_from (r : regex) (tmpl : list piece) (skip pos : nat) (s : string)
  : py string :=
  match skip with
  | S j =>
      match s with
      | String _ s' => sub_from r tmpl j (S pos) s'
      | EmptyString => Ok EmptyString
      end
  | O =>
      match match_at r pos s with
      | Some m =>
          e <- expand tmpl m ;;
          match s with
          | String c s' =>
              if Nat.eqb (m_end m) pos
              then rest <- sub_from r tmpl 0 (S pos) s' ;; Ok (e ++ String c rest)
              else rest <- sub_from r tmpl (m_end m - pos - 1) (S pos) s' ;;
                   Ok (e ++ rest)
          | EmptyString => Ok e
          end
      | None =>
          match s with
          | String c s' => rest <- sub_from r tmpl 0 (S pos) s' ;; Ok (String c rest)
          | EmptyString => Ok EmptyString
          end
      end
  end.

Definition re_sub (r : regex) (tmpl : list piece) (s : string) : py string :=
  sub_from r tmpl 0 0 s.

(** Number of groups of a pattern. *)
Fixpoint ngroups (r : regex) : nat :=
  match r with
  | Bol | Lit _ | Plus _ => 0
  | Seq r1 r2 | Alt r1 r2 => ngroups r1 + ngroups r2
  | Opt r1 => ngroups r1
  | Group r1 => S (ngroups r1)
  end.

(** Patterns whose groups take part in every match: no group inside an
    alternative, an optional part or another group. *)
Fixpoint flat (r : regex) : bool :=
  match r with
  | Bol | Lit _ | Plus _ => true
  | Seq r1 r2 => flat r1 && flat r2
  | Alt r1 r2 => Nat.eqb (ngroups r1 + ngroups r2) 0
  | Opt r1 | Group r1 => Nat.eqb (ngroups r1) 0
  end.

End Re.

(** ** agent.py: [normalize_query] *)

Module Agent.
Import PyStr Re.
Local Open Scope re_scope.

(** *** The patterns *)

Definition how_many_grouped : regex :=
  Bol >> "how many " >> Group (Plus Word) >> " in each " >> Group (Plus Word).

Definition how_much_pattern : regex :=
  Bol >> "how much is the " >> Group ("total" <|> "average" <|> "sum" <|> "mean")
      >> " " >> Group (Plus Word).

Definition what_calc_pattern : regex :=
  Bol >> "what is the "
      >> Group ("average" <|> "sum" <|> "total" <|> "mean" <|> "median" <|> "max"
                <|> "min" <|> "maximum" <|> "minimum")
      >> " " >> Opt "of " >> Group (Plus Word).

Definition what_are_pattern : regex :=
  Bol >> "what are the " >> Group (Plus Word).

Definition where_pattern : regex :=
  Bol >> "where " >> ("is" <|> "are") >> " " >> Group (Plus Word).

Definition can_you_pattern : regex :=
  Bol >> "can you " >> Group ("show" <|> "give" <|> "get" <|> "find" <|> "display")
      >> " " >> Opt "me " >> Group (Plus Dot).

Definition i_want_pattern : regex :=
  Bol >> "i want to " >> Group ("see" <|> "know" <|> "find" <|> "get")
      >> " " >> Group (Plus Dot).

(** The four templates of Pattern 1 differ in one word only. *)
Definition extreme_pattern (word : string) : regex :=
  Bol >> ("which" <|> "who" <|> "what") >> Plus Space >> ("has" <|> "have")
      >> Plus Space >> Opt ("the" >> Plus Space) >> word >> Plus Space
      >> Group (Plus Word).

Definition patterns_max_min : list (regex * list piece) :=
  [ (extreme_pattern "highest", [Text "show the row where "; Ref 1; Text " is maximum"]);
    (extreme_pattern "lowest", [Text "show the row where "; Ref 1; Text " is minimum"]);
    (extreme_pattern "max", [Text "show the row where "; Ref 1; Text " is maximum"]);
    (extreme_pattern "min", [Text "show the row where "; Ref 1; Text " is minimum"]) ].

Definition top_pattern : regex :=
  Bol >> "top" >> Plus Space >> Group (Plus Digit) >> Plus Space
      >> Opt ("by" >> Plus Space) >> Group (Plus Word).

Definition sort_top_pattern : regex :=
  Bol >> "sort" >> Plus Space >> Opt ("the" >> Plus Space) >> "top" >> Plus Space
      >> Group (Plus Digit) >> Plus Space >> ("by" <|> "rows by") >> Plus Space
      >> Group (Plus Word).

Definition dept_pattern : regex :=
  Bol >> Group (Plus Word) >> Plus Space
      >> ("department" <|> "employees" <|> "workers").

Definition action_words : list string :=
  ["show"; "display"; "get"; "find"; "calculate"; "list"; "count"].

Definition filter_words : list string := ["sort"; "filter"; "where"; "group"].

Definition replacements : list (string * string) :=
  [ (" exp ", " experience ");
    (" perf ", " performance ");
    (" dept ", " department ");
    (" sal ", " salary ");
    (" avg ", " average ") ].

(** *** The rules, in the order of the source

    Every rule reads [question_lower], the stripped and lower-cased input,
    and the current value of [question], and returns the new value of
    [question]. *)

(** Pattern 0 and 0b *)
Definition pattern_0 (question_lower question : string) : py string :=
  match re_match how_many_grouped question_lower with
  | Some m =>
      ig <- groups2 m ;;
      let (item, group) := ig in
      Ok ("count " ++ item ++ " in each " ++ group)
  | None =>
      if startswith question_lower "how many "
      then let item := strip (replace question_lower "how many " "") in
           Ok ("count total number of " ++ item)
      else Ok question
  end.

(** Pattern 0c *)
Definition pattern_0c (question_lower question : string) : py string :=
  match re_match how_much_pattern question_lower with
  | Some m =>
      oc <- groups2 m ;;
      let (operation, column) := oc in
      Ok ("calculate the " ++ operation ++ " of " ++ column)
  | None => Ok question
  end.

(** Pattern 0d *)
Definition pattern_0d (question_lower question : string) : py string :=
  match re_match what_calc_pattern question_lower with
  | Some m =>
      oc <- groups2 m ;;
      let (operation, column) := oc in
      if mem operation ["max"; "maximum"]
      then Ok ("show the row where " ++ column ++ " is maximum")
      else if mem operation ["min"; "minimum"]
      then Ok ("show the row where " ++ column ++ " is minimum")
      else Ok ("calculate the " ++ operation ++ " of " ++ column)
  | None => Ok question
  end.

(** Pattern 0e *)
Definition pattern_0e (question_lower question : string) : py string :=
  match re_match what_are_pattern question_lower with
  | Some m =>
      if negb (contains "unique" question_lower)
      then column <- group m 1 ;;
           Ok ("show unique values in " ++ column ++ " column")
      else Ok question
  | None => Ok question
  end.

(** Pattern 0f *)
Definition pattern_0f (question_lower question : string) : py string :=
  match re_match where_pattern question_lower with
  | Some m =>
      let condition :=
        replace (replace question_lower "where is " "") "where are " "" in
      Ok ("show rows where " ++ condition)
  | None => Ok question
  end.

(** Pattern 0g *)
Definition pattern_0g (question_lower question : string) : py string :=
  match re_match can_you_pattern question_lower with
  | Some m =>
      ar <- groups2 m ;;
      let (action, rest) := ar in
      Ok (action ++ " " ++ rest)
  | None => Ok question
  end.

(** Pattern 0h *)
Definition pattern_0h (question_lower question : string) : py string :=
  match re_match i_want_pattern question_lower with
  | Some m =>
      ar <- groups2 m ;;
      let (_, rest) := ar in
      Ok ("show " ++ rest)
  | None => Ok question
  end.

(** Pattern 0i *)
Definition pattern_0i (question_lower question : string) : py string :=
  if startswith question_lower "tell me "
  then let rest := replace question_lower "tell me " "" in Ok ("show " ++ rest)
  else Ok question.

(** Pattern 0j *)
Definition pattern_0j (question_lower question : string) : py string :=
  if startswith question_lower "give me "
  then let rest := replace question_lower "give me " "" in Ok ("show " ++ rest)
  else Ok question.

(** Pattern 1: the loop over [patterns_max_min], left at the first match.
    [re.sub] is called with IGNORECASE, which changes nothing on a text that
    is already lower-cased: no character of the block other than [A-Z]
    folds to a letter of the patterns. *)
Fixpoint pattern_1_loop (l : list (regex * list piece))
         (question_lower question : string) : py string :=
  match l with
  | [] => Ok question
  | (pattern, replacement) :: l' =>
      match re_match pattern question_lower with
      | Some _ => re_sub pattern replacement question_lower
      | None => pattern_1_loop l' question_lower question
      end
  end.

Definition pattern_1 : string -> string -> py string :=
  pattern_1_loop patterns_max_min.

(** Pattern 2 *)
Definition pattern_2 (question_lower question : string) : py string :=
  match re_match top_pattern question_lower with
  | Some m =>
      nc <- groups2 m ;;
      let (n, column) := nc in
      Ok ("sort by " ++ column ++ " descending and show first " ++ n ++ " rows")
  | None => Ok question
  end.

(** Pattern 3 *)
Definition pattern_3 (question_lower question : string) : py string :=
  match re_match sort_top_pattern question_lower with
  | Some m =>
      nc <- groups2 m ;;
      let (n, column) := nc in
      Ok ("sort by " ++ column ++ " descending and show first " ++ n ++ " rows")
  | None => Ok question
  end.

(** Pattern 4 *)
Definition pattern_4 (question_lower question : string) : py string :=
  if startswith question_lower "average "
     && Nat.eqb (List.length (split question)) 2
  then match nth_error (split question) 1 with
       | Some column => Ok ("calculate the average of " ++ column)
       | None => Raise IndexError
       end
  else Ok question.

(** Pattern 5 *)
Definition pattern_5 (question_lower question : string) : py string :=
  match re_match dept_pattern question_lower with
  | Some m =>
      if negb (startswith question_lower "show")
      then dept <- group m 1 ;;
           Ok ("show all rows where department equals " ++ dept)
      else Ok question
  | None => Ok question
  end.

(** Pattern 6 *)
Definition pattern_6 (question_lower question : string) : py string :=
  if mem question_lower
         ["oldest"; "who is oldest"; "oldest employee"; "who is the oldest"]
  then Ok "show the row where age is maximum"
  else if mem question_lower
         ["youngest"; "who is youngest"; "youngest employee"; "who is the youngest"]
  then Ok "show the row where age is minimum"
  else if mem question_lower
         ["best performer"; "best employee"; "highest performer"; "who is the best"]
  then Ok "show the row where performance_score is maximum"
  else Ok question.

(** Pattern 7 *)
Definition pattern_7 (question_lower question : string) : py string :=
  if negb (existsb (fun word => startswith question_lower word) action_words)
  then if existsb (fun word => contains word question_lower) filter_words
       then Ok ("show " ++ question)
       else Ok question
  else Ok question.

(** Pattern 8 *)
Definition pattern_8 (question : string) : string :=
  fold_left (fun q on => replace q (fst on) (snd on)) replacements question.

Definition normalize_query (question : string) : py string :=
  let question := strip question in
  let question_lower := lower question in
  question <- pattern_0 question_lower question ;;
  question <- pattern_0c question_lower question ;;
  question <- pattern_0d question_lower question ;;
  question <- pattern_0e question_lower question ;;
  question <- pattern_0f question_lower question ;;
  question <- pattern_0g question_lower question ;;
  question <- pattern_0h question_lower question ;;
  question <- pattern_0i question_lower question ;;
  question <- pattern_0j question_lower question ;;
  question <- pattern_1 question_lower question ;;
  question <- pattern_2 question_lower question ;;
  question <- pattern_3 question_lower question ;;
  question <- pattern_4 question_lower question ;;
  question <- pattern_5 question_lower question ;;
  question <- pattern_6 question_lower question ;;
  question <- pattern_7 question_lower question ;;
  Ok (pattern_8 question).

End Agent.

(** ** Floating point

    A finite binary64 value is modelled by the rational it denotes, kept in
    lowest terms.  [round] is rounding to nearest, ties to even, with 53
    significant bits; the exponent range is not modelled, the values of this
    program (quotients of list lengths, lengths scaled by a constant) being
    far inside it. *)

Module Float.

Definition float : Type := Q.

(** Largest [l] with [2^l <= x], for [x > 0]. *)
Definition ilog2 (x : Q) : Z :=
  let l := (Z.log2 (Qnum x) - Z.log2 (Zpos (Qden x)))%Z in
  if Qle_bool (2 ^ l) x then l else (l - 1)%Z.

(** Nearest integer, ties to even. *)
Definition rne (y : Q) : Z :=
  let f := Qfloor y in
  match (y - inject_Z f ?= 1 # 2)%Q with
  | Lt => f
  | Gt => (f + 1)%Z
  | Eq => if Z.even f then f else (f + 1)%Z
  end.

(** Nearest value with a 53-bit significand, for [x > 0]. *)
Definition round_pos (x : Q) : Q :=
  let e := (ilog2 x - 52)%Z in
  (inject_Z (rne (x / 2 ^ e)) * 2 ^ e)%Q.

Definition round (x : Q) : float :=
  match Qnum x with
  | Z0 => 0%Q
  | Zpos _ => Qred (round_pos x)
  | Zneg _ => Qred (- round_pos (- x))
  end.

(** [float(n)] *)
Definition of_int (n : Z) : float := round (inject_Z n).

(** A decimal literal [a/b], such as [0.7]. *)
Definition literal (a : Z) (b : positive) : float := round (a # b).

(** [a / b] on integers: the exact quotient, correctly rounded. *)
Definition truediv (a b : Z) : py float :=
  if Z.eqb b 0 then Raise ZeroDivisionError
  else Ok (round (inject_Z a / inject_Z b)).

(** [x * y] *)
Definition mul (x y : float) : float := round (x * y).

(** [x <= y] and [x < y] *)
Definition leb (x y : float) : bool := Qle_bool x y.
Definition ltb (x y : float) : bool := negb (Qle_bool y x).

(** [n > x] for an integer [n]: the comparison is exact. *)
Definition int_gt (n : Z) (x : float) : bool := ltb x (inject_Z n).

(** The value of a finite binary64 datum of the standard library's
    IEEE 754 specification. *)
Definition SF2Q (f : spec_float) : option Q :=
  match f with
  | S754_zero _ => Some 0%Q
  | S754_finite s m e =>
      Some (Qred ((if s then - inject_Z (Zpos m) else inject_Z (Zpos m)) * 2 ^ e))
  | _ => None
  end.

Definition b64_of_int (n : Z) : spec_float := binary_normalize 53 1024 n 0 false.
Definition b64_mul : spec_float -> spec_float -> spec_float := SFmul 53 1024.
Definition b64_div : spec_float -> spec_float -> spec_float := SFdiv 53 1024.

End Float.

(** ** agent.py: [DataAnalysisAgent.query] *)

Module Query.
Import PyStr Agent.

(** What the external agent hands back: nothing, text, a dictionary, or some
    other object (a dataframe, a number) that the wrapper passes on. *)
#[local] Set Warnings "-register-all".
Inductive pyval : Type :=
| VNone
| VStr (s : string)
| VDict (d : list (string * pyval))
| VObject (id : nat).

(** [self.agent.invoke(text)] either returns or raises; [Raises msg] carries
    [str(e)]. *)
Inductive outcome : Type :=
| Returns (v : pyval)
| Raises (msg : string).

Record DataAnalysisAgent : Type := {
  agent : option (string -> outcome);
  df_columns : list string
}.

(** The dictionary [query] returns. *)
Record query_result : Type := {
  success : bool;
  result : pyval;
  error : option string
}.

Fixpoint lookup (key : string) (d : list (string * pyval)) : option pyval :=
  match d with
  | [] => None
  | (k, v) :: d' => if String.eqb k key then Some v else lookup key d'
  end.

Definition len (s : string) : Z := Z.of_nat (String.length s).

(** [normalized_question != question and
     len(normalized_question) > len(question) * 0.7] *)
Definition accepts (normalized_question question : string) : bool :=
  negb (String.eqb normalized_question question)
  && Float.int_gt (len normalized_question)
                  (Float.mul (Float.of_int (len question)) (Float.literal 7 10)).

Definition cue_words : list string :=
  ["show"; "display"; "get"; "find"; "sort"; "filter"; "calculate"].

(** The text handed to the agent. *)
Definition enhance (question : string) : string :=
  if existsb (fun word => contains word (lower question)) cue_words
  then question
  else "Show me: " ++ question.

Definition extract_output (result : pyval) : pyval :=
  match result with
  | VDict d =>
      match lookup "output" d with
      | Some v => v
      | None =>
          match lookup "result" d with
          | Some v => v
          | None => result
          end
      end
  | _ => result
  end.

Definition no_output (output : pyval) : bool :=
  match output with
  | VNone => true
  | VStr s => String.eqb (strip s) ""
  | _ => false
  end.

(** The [except] branch: the text shown for an error message. *)
Definition clean_error (columns : list string) (error_msg : string) : string :=
  if contains "Could not parse LLM output" error_msg
  then "The AI is having trouble understanding this query. Try using simpler phrasing like 'show first 5 rows' or 'calculate average salary'."
  else if contains "column" (lower error_msg) && contains "not found" (lower error_msg)
  then "Column not found. Available columns are: " ++ join ", " columns
  else if contains "parsing" (lower error_msg)
  then "Query format issue. Try rephrasing more simply, like 'show rows where salary > 80000'."
  else if (200 <? len error_msg)%Z
  then take 200 error_msg ++ "... (Try a simpler query)"
  else error_msg.

Definition failure (error_msg : string) : query_result :=
  {| success := false; result := VNone; error := Some error_msg |}.

Section QueryMethod.
(** [str(e)] for an exception [normalize_query] would raise within the
    [try] block. *)
Variable str_exn : exn -> string.

(** The value of [question] after the acceptance test, when nothing was
    raised before it. *)
Definition effective_question (question : string) : py string :=
  normalized_question <- normalize_query question ;;
  Ok (if accepts normalized_question question
      then normalized_question
      else question).

Definition query (self : DataAnalysisAgent) (question : string) : query_result :=
  match agent self with
  | None => failure "Agent not initialized. Please upload a CSV first."
  | Some invoke =>
      match effective_question question with
      | Raise e => failure (clean_error (df_columns self) (str_exn e))
      | Ok question =>
          match invoke (enhance question) with
          | Raises error_msg => failure (clean_error (df_columns self) error_msg)
          | Returns result =>
              let output := extract_output result in
              let output :=
                if no_output output
                then VStr "Query executed successfully but returned no output."
                else output in
              {| success := true; result := output; error := None |}
          end
      end
  end.
End QueryMethod.

End Query.

(** ** utils.py: [validate_dataframe] *)

Module Utils.

(** A cell is missing ([NaN], [None], [NaT]) or holds a value. *)
Inductive cell : Type :=
| Missing
| Value (v : string).

(** A dataframe: the length of its index and its columns, each a label and
    the cells of that column, one per row. *)
Record DataFrame : Type := {
  index_len : nat;
  columns : list (string * list cell)
}.

Definition isnull (c : cell) : bool :=
  match c with
  | Missing => true
  | Value _ => false
  end.

(** [df.empty]: some axis has length zero. *)
Definition empty (df : DataFrame) : bool :=
  Nat.eqb (index_len df) 0 || Nat.eqb (List.length (columns df)) 0.

(** [df.isnull().all().all()]: per column, then over the columns. *)
Definition isnull_all_all (df : DataFrame) : bool :=
  forallb (fun col => forallb isnull (snd col)) (columns df).

Definition validate_dataframe (df : option DataFrame) : bool * string :=
  match df with
  | None => (false, "Dataframe is None")
  | Some df =>
      if empty df then (false, "Dataframe is empty")
      else if Nat.eqb (List.length (columns df)) 0 then (false, "No columns found")
      else if isnull_all_all df then (false, "All values are null")
      else (true, "")
  end.

(** [df.columns.str.strip().str.lower().str.replace(' ', '_')], on one
    label. *)
Definition normalize_label (name : string) : string :=
  PyStr.replace (PyStr.lower (PyStr.strip name)) " " "_".

(** [normalize_column_names]: the labels are rewritten, the cells stay. *)
Definition normalize_column_names (df : DataFrame) : DataFrame :=
  {| index_len := index_len df;
     columns := map (fun col => (normalize_label (fst col), snd col)) (columns df) |}.

(** What [pd.read_csv(uploaded_file, encoding=...)] does after
    [uploaded_file.seek(0)]: it returns a frame, raises [UnicodeDecodeError],
    or raises another exception, [Failed msg] carrying [str(e)]. *)
Inductive read_outcome : Type :=
| Parsed (df : DataFrame)
| UnicodeDecodeError
| Failed (msg : string).

(** An uploaded file, as far as the loader sees it: the outcome of reading
    it under each encoding. *)
Definition uploaded_file : Type := string -> read_outcome.

Definition encodings : list string := ["utf-8"; "latin-1"; "iso-8859-1"; "cp1252"].

(** The loop of [load_csv_file] over the encodings still to try; [shown]
    collects the texts given to [st.error]. *)
Fixpoint load_loop (file : uploaded_file) (todo : list string) (shown : list string)
  : option DataFrame * list string :=
  match todo with
  | [] => (None, shown)
  | encoding :: todo' =>
      match file encoding with
      | Parsed df => (Some (normalize_column_names df), shown)
      | UnicodeDecodeError => load_loop file todo' shown
      | Failed msg =>
          load_loop file todo'
                    (shown ++ [("Error reading CSV with " ++ encoding ++ ": " ++ msg)%string])%list
      end
  end.

(** [load_csv_file]: the frame or [None], and the errors shown. *)
Definition load_csv_file (file : option uploaded_file)
  : option DataFrame * list string :=
  match file with
  | None => (None, [])
  | Some file => load_loop file encodings []
  end.

End Utils.

(** ** tracker.py: [QueryTracker] *)

Module Tracker.

Record entry : Type := {
  timestamp : string;
  query : string;
  success : bool;
  error : option string
}.

(** [st.session_state.query_history] *)
Definition history : Type := list entry.

(** [log_query]; [now] is [datetime.now().isoformat()]. *)
Definition log_query (now : string) (query : string) (success : bool)
           (error_msg : option string) (h : history) : history :=
  (h ++ [ {| timestamp := now; query := query; success := success;
             error := error_msg |} ])%list.

(** [sum(1 for q in history if q['success'])] *)
Definition successful (h : history) : Z :=
  fold_left (fun acc q => if success q then (acc + 1)%Z else acc) h 0%Z.

Definition get_total_queries (h : history) : Z := Z.of_nat (List.length h).

Definition get_success_rate (h : history) : py Float.float :=
  match h with
  | [] => Ok 0%Q
  | _ =>
      let total := get_total_queries h in
      ratio <- Float.truediv (successful h) total ;;
      Ok (Float.mul ratio (Float.of_int 100))
  end.

(** [l[start:]] *)
Definition slice_from {A : Type} (start : Z) (l : list A) : list A :=
  let n := Z.of_nat (List.length l) in
  let start := if (start <? 0)%Z then Z.max (start + n) 0 else Z.min start n in
  skipn (Z.to_nat start) l.

Definition get_recent_queries (n : Z) (h : history) : list entry :=
  slice_from (- n) h.

Definition clear_history (h : history) : history := [].

Definition get_failure_queries (h : history) : list entry :=
  filter (fun q => negb (success q)) h.

(** The operations that change the history, and their effect. *)
Inductive op : Type :=
| Log (now query : string) (success : bool) (error_msg : option string)
| Clear.

Definition step (h : history) (o : op) : history :=
  match o with
  | Log now query success error_msg => log_query now query success error_msg h
  | Clear => clear_history h
  end.

(** A tracker starts on an empty history. *)
Definition run (ops : list op) : history := fold_left step ops [].

End Tracker.

(** ** app.py: the handlers, as far as they change the session

    What is drawn on the page is not modelled, except the texts given to
    [st.error]. *)

Module App.

(** [st.session_state.df] and [st.session_state.data_loaded] *)
Record session_state : Type := {
  df : option Utils.DataFrame;
  data_loaded : bool
}.

(** [initialize_session_state] on a fresh session *)
Definition initial_state : session_state := {| df := None; data_loaded := false |}.

(** [render_data_upload]: the new session state and the errors shown. *)
Definition render_data_upload (uploaded_file : option Utils.uploaded_file)
           (st : session_state) : session_state * list string :=
  match uploaded_file with
  | None => (st, [])
  | Some _ =>
      let (loaded, shown) := Utils.load_csv_file uploaded_file in
      match loaded with
      | Some df =>
          let (is_valid, error_msg) := Utils.validate_dataframe (Some df) in
          if is_valid
          then ({| df := Some df; data_loaded := true |}, shown)
          else (st, (shown ++ [("Invalid dataframe: " ++ error_msg)%string])%list)
      | None => (st, (shown ++ ["Failed to load CSV. Check file encoding."])%list)
      end
  end.

Section Analyze.
Variable str_exn : exn -> string.

(** The Analyze button of [render_query_interface], once data and agent are
    there: the query is run and logged. *)
Definition on_analyze (agent : Query.DataAnalysisAgent) (now question : string)
           (h : Tracker.history) : Tracker.history :=
  if String.eqb question "" then h
  else
    let result := Query.query str_exn agent question in
    Tracker.log_query now question (Query.success result) (Query.error result) h.
End Analyze.

(** The entries of the "Recent Queries" panel of [main], top to bottom. *)
Definition recent_panel (h : Tracker.history) : list Tracker.entry :=
  if (0 <? Tracker.get_total_queries h)%Z
  then rev (Tracker.get_recent_queries 5 h)
  else [].

End App.

(** ** Vocabulary of the properties *)

Module Vocabulary.
Import PyStr Re Agent.

(** Every reference of a template names a group of the pattern. *)
Definition refs_within (n : nat) (tmpl : list piece) : bool :=
  forallb (fun p => match p with
                    | Text _ => true
                    | Ref i => Nat.ltb (i - 1) n
                    end) tmpl.

(** Every character of [w] is in the class [p]. *)
Fixpoint all_in (p : ascii -> bool) (w : string) : bool :=
  match w with
  | EmptyString => true
  | String c w' => p c && all_in p w'
  end.

(** The groups of [re.match(r, s)], when it matches. *)
Definition groups_of (r : regex) (s : string) : option (list string) :=
  option_map m_groups (re_match r s).

(** A word with the abbreviation of Pattern 8 it stands for written out. *)
Definition expanded (word : string) : string :=
  if String.eqb word "exp" then "experience"
  else if String.eqb word "perf" then "performance"
  else if String.eqb word "dept" then "department"
  else if String.eqb word "sal" then "salary"
  else if String.eqb word "avg" then "average"
  else word.

(** The number of entries of a history whose success flag is set. *)
Definition count_success (h : Tracker.history) : Z :=
  Z.of_nat (List.length (filter Tracker.success h)).

(** [100 * (part / whole)] in binary64 arithmetic. *)
Definition percent (part whole : Z) : Float.float :=
  Float.mul (Float.of_int 100) (Float.round (inject_Z part / inject_Z whole)).


(** The last [n] elements of a list, oldest first; the whole list when it
    has fewer. *)
Definition last_entries {A : Type} (n : nat) (l : list A) : list A :=
  skipn (List.length l - n) l.

(** Some cell of the frame holds a value. *)
Definition has_value (df : Utils.DataFrame) : Prop :=
  exists col c, In col (Utils.columns df) /\ In c (snd col)
                /\ Utils.isnull c = false.

(** A verdict of the validator that rejects and says why. *)
Definition rejected (verdict : bool * string) : Prop :=
  fst verdict = false /\ snd verdict <> "".

(** A datum of the standard library's binary64 model has the value [x]. *)
Definition same_value (f : spec_float) (x : Float.float) : bool :=
  match Float.SF2Q f with
  | Some y => Qeq_bool y x
  | None => false
  end.

(** The two models agree on the success rate of every history of [total]
    entries. *)
Definition rate_agrees (total : nat) : bool :=
  forallb (fun part =>
             same_value
               (Float.b64_mul (Float.b64_div (Float.b64_of_int (Z.of_nat part))
                                             (Float.b64_of_int (Z.of_nat total)))
                              (Float.b64_of_int 100))
               (percent (Z.of_nat part) (Z.of_nat total)))
          (seq 0 (S total)).

(** The two models agree on [length * 0.7]. *)
Definition threshold_agrees (length : nat) : bool :=
  same_value
    (Float.b64_mul (Float.b64_of_int (Z.of_nat length))
                   (Float.b64_div (Float.b64_of_int 7) (Float.b64_of_int 10)))
    (Float.mul (Float.of_int (Z.of_nat length)) (Float.literal 7 10)).

(** A question of 90 characters that Pattern 0 rewrites into 63. *)
Definition long_question : string :=
  "how many outstanding_customer_invoices in each regional_sales_area over the last two years".

(** A text that does not begin, or does not end, with whitespace. *)
Definition starts_clean (s : string) : bool :=
  match s with
  | EmptyString => true
  | String c _ => negb (isspace c)
  end.

Fixpoint ends_clean (s : string) : bool :=
  match s with
  | EmptyString => true
  | String c EmptyString => negb (isspace c)
  | String _ s' => ends_clean s'
  end.

Definition not_blank (c : ascii) : bool := negb (Ascii.eqb c " ").
Definition not_upper (c : ascii) : bool := negb (isupper c).

(** A label as [normalize_column_names] leaves it: it holds no blank, and
    neither [lower] nor [strip] changes it. *)
Definition normal_label (name : string) : Prop :=
  all_in not_blank name = true
  /\ lower name = name
  /\ strip name = name.

(** The file parses under the encoding. *)
Definition parses (file : Utils.uploaded_file) (encoding : string) : bool :=
  match file encoding with
  | Utils.Parsed _ => true
  | _ => false
  end.

(** The session after a series of visits to the upload box, each with a
    file or without. *)
Definition after_uploads (files : list (option Utils.uploaded_file))
  : App.session_state :=
  fold_left (fun st file => fst (App.render_data_upload file st)) files
            App.initial_state.

(** When the session says that data is loaded, its frame can be analysed and
    its labels are in normal form. *)
Definition usable (st : App.session_state) : Prop :=
  App.data_loaded st = true ->
  exists d, App.df st = Some d
            /\ 1 <= Utils.index_len d /\ 1 <= List.length (Utils.columns d)
            /\ has_value d
            /\ forall col, In col (Utils.columns d) -> normal_label (fst col).

(** What the user does to the history: ask a question, or clear it. *)
Inductive event : Type :=
| Ask (agent : Query.DataAnalysisAgent) (now question : string)
| ClearHistory.

Definition after_events (str_exn : exn -> string) (events : list event)
  : Tracker.history :=
  fold_left (fun h ev =>
               match ev with
               | Ask agent now question => App.on_analyze str_exn agent now question h
               | ClearHistory => Tracker.clear_history h
               end) events [].

(** An entry says why it failed exactly when it failed, and holds a
    question. *)
Definition coherent (q : Tracker.entry) : Prop :=
  (Tracker.success q = true <-> Tracker.error q = None) /\ Tracker.query q <> "".

End Vocabulary.

(** * Properties *)

Import PyStr Re Agent Vocabulary.

(** ** The matcher *)

Section MatcherFacts.
Context {A : Type}.

Lemma star_reaches_cont (p : ascii -> bool) (s : string) :
  forall pos (k : nat -> string -> option A) x,
    star p pos s k = Some x -> exists pos' s', k pos' s' = Some x.
Proof.
  induction s as [|c s IH]; intros pos k x H; simpl in H.
  - eauto.
  - destruct (p c); [|eauto].
    destruct (star p (S pos) s k) eqn:E.
    + inversion H; subst. eapply IH; eassumption.
    + eauto.
Qed.

Lemma plus_reaches_cont (p : ascii -> bool) (s : string) pos
      (k : nat -> string -> option A) x :
  plus p pos s k = Some x -> exists pos' s', k pos' s' = Some x.
Proof.
  destruct s as [|c s]; simpl; [discriminate|].
  destruct (p c); [|discriminate].
  apply star_reaches_cont.
Qed.

(** A pattern without groups leaves the groups as they are. *)
Lemma run_without_groups (r : regex) :
  forall pos s caps (k : nat -> string -> list string -> option A) x,
    ngroups r = 0 ->
    run r pos s caps k = Some x ->
    exists pos' s', k pos' s' caps = Some x.
Proof.
  induction r as [|l|c|r1 IHr1 r2 IHr2|r1 IHr1 r2 IHr2|r IHr|r IHr];
    intros pos s caps k x Hn H; simpl in *.
  - destruct (Nat.eqb pos 0); [eauto|discriminate].
  - destruct (chop l s); [eauto|discriminate].
  - apply plus_reaches_cont in H. exact H.
  - apply IHr1 in H; [|lia]. destruct H as (pos1 & s1 & H).
    apply IHr2 in H; [|lia]. exact H.
  - destruct (run r1 pos s caps k) eqn:E.
    + inversion H; subst. apply IHr1 in E; [exact E|lia].
    + apply IHr2 in H; [exact H|lia].
  - destruct (run r pos s caps k) eqn:E.
    + inversion H; subst. apply IHr in E; [exact E|lia].
    + eauto.
  - discriminate.
Qed.

(** A flat pattern closes each of its groups once. *)
Lemma run_flat_groups (r : regex) :
  forall pos s caps (k : nat -> string -> list string -> option A) x,
    flat r = true ->
    run r pos s caps k = Some x ->
    exists pos' s' caps',
      k pos' s' caps' = Some x
      /\ List.length caps' = List.length caps + ngroups r.
Proof.
  induction r as [|l|c|r1 IHr1 r2 IHr2|r1 IHr1 r2 IHr2|r IHr|r IHr];
    intros pos s caps k x Hf H.
  - apply run_without_groups in H; [|reflexivity].
    destruct H as (pos' & s' & H). exists pos', s', caps. simpl. split; [exact H|lia].
  - apply run_without_groups in H; [|reflexivity].
    destruct H as (pos' & s' & H). exists pos', s', caps. simpl. split; [exact H|lia].
  - apply run_without_groups in H; [|reflexivity].
    destruct H as (pos' & s' & H). exists pos', s', caps. simpl. split; [exact H|lia].
  - simpl in Hf. apply andb_prop in Hf. destruct Hf as [Hf1 Hf2].
    simpl in H. apply IHr1 in H; [|exact Hf1].
    destruct H as (pos1 & s1 & caps1 & H & L1).
    apply IHr2 in H; [|exact Hf2].
    destruct H as (pos2 & s2 & caps2 & H & L2).
    exists pos2, s2, caps2. simpl. split; [exact H|lia].
  - simpl in Hf. apply Nat.eqb_eq in Hf.
    apply run_without_groups in H; [|exact Hf].
    destruct H as (pos' & s' & H). exists pos', s', caps.
    split; [exact H|]. simpl. lia.
  - simpl in Hf. apply Nat.eqb_eq in Hf.
    apply run_without_groups in H; [|exact Hf].
    destruct H as (pos' & s' & H). exists pos', s', caps.
    split; [exact H|]. simpl. lia.
  - simpl in Hf. apply Nat.eqb_eq in Hf.
    simpl in H. apply run_without_groups in H; [|exact Hf].
    destruct H as (pos' & s' & H).
    exists pos', s', (caps ++ [take (pos' - pos) s])%list.
    split; [exact H|]. rewrite length_app. simpl. lia.
Qed.
End MatcherFacts.

Lemma match_at_groups (r : regex) (pos : nat) (s : string) (m : match_object) :
  flat r = true ->
  match_at r pos s = Some m ->
  List.length (m_groups m) = ngroups r.
Proof.
  intros Hf H. unfold match_at in H.
  apply run_flat_groups in H; [|exact Hf].
  destruct H as (pos' & s' & caps' & H & L).
  inversion H; subst. simpl. exact L.
Qed.

Lemma groups2_ok (r : regex) (s : string) (m : match_object) :
  flat r = true -> ngroups r = 2 ->
  re_match r s = Some m ->
  exists a b, m_groups m = [a; b] /\ groups2 m = Ok (a, b).
Proof.
  intros Hf Hn H. apply match_at_groups in H; [|exact Hf].
  rewrite Hn in H. unfold groups2.
  destruct (m_groups m) as [|a [|b [|c l]]]; try discriminate.
  exists a, b. split; reflexivity.
Qed.

Lemma group1_ok (r : regex) (s : string) (m : match_object) :
  flat r = true -> ngroups r = 1 ->
  re_match r s = Some m ->
  exists a, m_groups m = [a] /\ group m 1 = Ok a.
Proof.
  intros Hf Hn H. apply match_at_groups in H; [|exact Hf].
  rewrite Hn in H. unfold group.
  destruct (m_groups m) as [|a [|b l]]; try discriminate.
  exists a. split; reflexivity.
Qed.

Lemma expand_ok (tmpl : list piece) (m : match_object) :
  refs_within (List.length (m_groups m)) tmpl = true ->
  exists e, expand tmpl m = Ok e.
Proof.
  induction tmpl as [|p tmpl IH]; intros H; simpl in *.
  - eauto.
  - apply andb_prop in H. destruct H as [Hp Ht].
    destruct (IH Ht) as [e He].
    destruct p as [t|i].
    + rewrite He. simpl. eauto.
    + apply Nat.ltb_lt in Hp. apply nth_error_Some in Hp.
      destruct (nth_error (m_groups m) (i - 1)); [|congruence].
      rewrite He. simpl. eauto.
Qed.

Lemma sub_from_ok (r : regex) (tmpl : list piece) :
  flat r = true ->
  refs_within (ngroups r) tmpl = true ->
  forall s skip pos, exists out, sub_from r tmpl skip pos s = Ok out.
Proof.
  intros Hf Hr. induction s as [|c s IH]; intros skip pos.
  - destruct skip; simpl; [|eauto].
    destruct (match_at r pos "") eqn:E; [|eauto].
    destruct (expand_ok tmpl m) as [e He].
    { rewrite (match_at_groups _ _ _ _ Hf E). exact Hr. }
    rewrite He. simpl. eauto.
  - destruct skip; simpl; [|apply IH].
    destruct (match_at r pos (String c s)) eqn:E.
    + destruct (expand_ok tmpl m) as [e He].
      { rewrite (match_at_groups _ _ _ _ Hf E). exact Hr. }
      rewrite He. simpl.
      destruct (Nat.eqb (m_end m) pos).
      * destruct (IH 0 (S pos)) as [out Ho]. rewrite Ho. simpl. eauto.
      * destruct (IH (m_end m - pos - 1) (S pos)) as [out Ho]. rewrite Ho. simpl. eauto.
    + destruct (IH 0 (S pos)) as [out Ho]. rewrite Ho. simpl. eauto.
Qed.

(** ** [normalize_query] never raises *)

Ltac two_groups E :=
  match type of E with
  | re_match ?r ?s = Some ?m =>
      destruct (groups2_ok r s m eq_refl eq_refl E) as (? & ? & _ & ->);
      cbn [bind]
  end.

Ltac one_group E :=
  match type of E with
  | re_match ?r ?s = Some ?m =>
      destruct (group1_ok r s m eq_refl eq_refl E) as (? & _ & ->);
      cbn [bind]
  end.

Lemma pattern_0_total ql q : exists q', pattern_0 ql q = Ok q'.
Proof.
  unfold pattern_0. destruct (re_match how_many_grouped ql) eqn:E.
  - two_groups E. eauto.
  - destruct (startswith ql "how many "); eauto.
Qed.

Lemma pattern_0c_total ql q : exists q', pattern_0c ql q = Ok q'.
Proof.
  unfold pattern_0c. destruct (re_match how_much_pattern ql) eqn:E; [|eauto].
  two_groups E. eauto.
Qed.

Lemma pattern_0d_total ql q : exists q', pattern_0d ql q = Ok q'.
Proof.
  unfold pattern_0d. destruct (re_match what_calc_pattern ql) eqn:E; [|eauto].
  two_groups E.
  destruct (mem _ ["max"; "maximum"]); [eauto|].
  destruct (mem _ ["min"; "minimum"]); eauto.
Qed.

Lemma pattern_0e_total ql q : exists q', pattern_0e ql q = Ok q'.
Proof.
  unfold pattern_0e. destruct (re_match what_are_pattern ql) eqn:E; [|eauto].
  destruct (negb (contains "unique" ql)); [|eauto].
  one_group E. eauto.
Qed.

Lemma pattern_0f_total ql q : exists q', pattern_0f ql q = Ok q'.
Proof.
  unfold pattern_0f. destruct (re_match where_pattern ql); eauto.
Qed.

Lemma pattern_0g_total ql q : exists q', pattern_0g ql q = Ok q'.
Proof.
  unfold pattern_0g. destruct (re_match can_you_pattern ql) eqn:E; [|eauto].
  two_groups E. eauto.
Qed.

Lemma pattern_0h_total ql q : exists q', pattern_0h ql q = Ok q'.
Proof.
  unfold pattern_0h. destruct (re_match i_want_pattern ql) eqn:E; [|eauto].
  two_groups E. eauto.
Qed.

Lemma pattern_0i_total ql q : exists q', pattern_0i ql q = Ok q'.
Proof.
  unfold pattern_0i. destruct (startswith ql "tell me "); eauto.
Qed.

Lemma pattern_0j_total ql q : exists q', pattern_0j ql q = Ok q'.
Proof.
  unfold pattern_0j. destruct (startswith ql "give me "); eauto.
Qed.

Lemma pattern_1_loop_total l ql q :
  Forall (fun pr => flat (fst pr) = true
                    /\ refs_within (ngroups (fst pr)) (snd pr) = true) l ->
  exists q', pattern_1_loop l ql q = Ok q'.
Proof.
  induction 1 as [|[pattern replacement] l [Hf Hr] _ IH]; simpl; [eauto|].
  destruct (re_match pattern ql); [|exact IH].
  apply sub_from_ok; assumption.
Qed.

Lemma pattern_1_total ql q : exists q', pattern_1 ql q = Ok q'.
Proof.
  apply pattern_1_loop_total.
  repeat constructor.
Qed.

Lemma pattern_2_total ql q : exists q', pattern_2 ql q = Ok q'.
Proof.
  unfold pattern_2. destruct (re_match top_pattern ql) eqn:E; [|eauto].
  two_groups E. eauto.
Qed.

Lemma pattern_3_total ql q : exists q', pattern_3 ql q = Ok q'.
Proof.
  unfold pattern_3. destruct (re_match sort_top_pattern ql) eqn:E; [|eauto].
  two_groups E. eauto.
Qed.

Lemma pattern_4_total ql q : exists q', pattern_4 ql q = Ok q'.
Proof.
  unfold pattern_4.
  destruct (startswith ql "average "); simpl; [|eauto].
  destruct (Nat.eqb (List.length (split q)) 2) eqn:E; [|eauto].
  apply Nat.eqb_eq in E.
  destruct (split q) as [|a [|b l]]; try discriminate. simpl. eauto.
Qed.

Lemma pattern_5_total ql q : exists q', pattern_5 ql q = Ok q'.
Proof.
  unfold pattern_5. destruct (re_match dept_pattern ql) eqn:E; [|eauto].
  destruct (negb (startswith ql "show")); [|eauto].
  one_group E. eauto.
Qed.

Lemma pattern_6_total ql q : exists q', pattern_6 ql q = Ok q'.
Proof.
  unfold pattern_6.
  repeat match goal with |- context [if ?b then _ else _] => destruct b end; eauto.
Qed.

Lemma pattern_7_total ql q : exists q', pattern_7 ql q = Ok q'.
Proof.
  unfold pattern_7.
  repeat match goal with |- context [if ?b then _ else _] => destruct b end; eauto.
Qed.

Ltac through L :=
  match goal with
  | |- context [bind (?f ?ql ?q) _] =>
      let q' := fresh "question" in
      let E := fresh "E" in
      destruct (L ql q) as [q' E]; rewrite E; cbn [bind]
  end.

Lemma normalize_query_returns (question : string) :
  exists normalized, normalize_query question = Ok normalized.
Proof.
  unfold normalize_query.
  through pattern_0_total. through pattern_0c_total. through pattern_0d_total.
  through pattern_0e_total. through pattern_0f_total. through pattern_0g_total.
  through pattern_0h_total. through pattern_0i_total. through pattern_0j_total.
  through pattern_1_total. through pattern_2_total. through pattern_3_total.
  through pattern_4_total. through pattern_5_total. through pattern_6_total.
  through pattern_7_total.
  eauto.
Qed.

(** C5: [normalize_query] is total: on every string, the empty one included,
    it returns a string and raises nothing. *)
Theorem normalize_query_total :
  forall question : string, exists normalized, normalize_query question = Ok normalized.
Proof. exact normalize_query_returns. Qed.

(** ** What a match tells about the text *)

Lemma chop_inv (l : string) :
  forall s s', chop l s = Some s' -> s = l ++ s'.
Proof.
  induction l as [|a l IH]; intros s s' H; simpl in H.
  - inversion H. reflexivity.
  - destruct s as [|b s]; [discriminate|].
    destruct (Ascii.eqb a b) eqn:E; [|discriminate].
    apply Ascii.eqb_eq in E. subst b. simpl. f_equal. apply IH. exact H.
Qed.

Lemma take_app (w s : string) : take (String.length w) (w ++ s) = w.
Proof.
  unfold take. induction w as [|c w IH]; simpl.
  - destruct s; reflexivity.
  - f_equal. exact IH.
Qed.

Lemma take_app_len (n : nat) (w s : string) :
  n = String.length w -> take n (w ++ s) = w.
Proof. intros ->. apply take_app. Qed.

Section RunFacts.
Context {A : Type}.

Lemma star_inv (p : ascii -> bool) (s : string) :
  forall pos (k : nat -> string -> option A) x,
    star p pos s k = Some x ->
    exists w s', s = w ++ s' /\ all_in p w = true
                 /\ k (pos + String.length w) s' = Some x.
Proof.
  induction s as [|c s IH]; intros pos k x H; simpl in H.
  - exists "", "". rewrite Nat.add_0_r. auto.
  - destruct (p c) eqn:Pc.
    + destruct (star p (S pos) s k) eqn:E.
      * inversion H; subst. apply IH in E.
        destruct E as (w & s' & -> & Hw & Hk).
        exists (String c w), s'. simpl. rewrite Pc, Hw.
        rewrite <- plus_n_Sm. auto.
      * exists "", (String c s). rewrite Nat.add_0_r. auto.
    + exists "", (String c s). rewrite Nat.add_0_r. auto.
Qed.

Lemma plus_inv (p : ascii -> bool) (s : string) pos
      (k : nat -> string -> option A) x :
  plus p pos s k = Some x ->
  exists w s', s = w ++ s' /\ w <> "" /\ all_in p w = true
               /\ k (pos + String.length w) s' = Some x.
Proof.
  destruct s as [|c s]; simpl; [discriminate|].
  destruct (p c) eqn:Pc; [|discriminate].
  intros H. apply star_inv in H. destruct H as (w & s' & -> & Hw & Hk).
  exists (String c w), s'. simpl. rewrite Pc, Hw, <- plus_n_Sm.
  repeat split; auto. discriminate.
Qed.
End RunFacts.

(** A match of Pattern 0: the text is ["how many "], a word, [" in each "],
    a word, and whatever follows; the groups are the two words. *)
Lemma how_many_grouped_inv (s : string) (item group : string) :
  groups_of how_many_grouped s = Some [item; group] ->
  exists rest,
    s = "how many " ++ item ++ " in each " ++ group ++ rest
    /\ all_in isword item = true /\ all_in isword group = true.
Proof.
  unfold groups_of, re_match, match_at, how_many_grouped.
  cbn [run Nat.eqb].
  destruct (chop "how many " s) as [t|] eqn:E1; [|discriminate].
  apply chop_inv in E1. subst s.
  destruct (plus _ _ _ _) as [m|] eqn:E2; [|discriminate].
  apply plus_inv in E2. destruct E2 as (w1 & t1 & -> & _ & W1 & E2).
  destruct (chop " in each " t1) as [u|] eqn:E3; [|discriminate].
  apply chop_inv in E3. subst t1.
  apply plus_inv in E2. destruct E2 as (w2 & t2 & -> & _ & W2 & E2).
  inversion E2; subst m. cbn [option_map m_groups app].
  rewrite 2 take_app_len by lia.
  intros H. inversion H; subst. exists t2. auto.
Qed.

(** ** Pattern 8 on the output of Pattern 0 *)

Lemma isword_not_space (c : ascii) : isword c = true -> c <> " "%char.
Proof. intros H ->. discriminate H. Qed.

Lemma append_empty_r (s : string) : s ++ "" = s.
Proof. induction s as [|c s IH]; simpl; [reflexivity|f_equal; exact IH]. Qed.

Lemma append_assoc (s1 s2 s3 : string) : s1 ++ s2 ++ s3 = (s1 ++ s2) ++ s3.
Proof. induction s1 as [|c s1 IH]; simpl; [reflexivity|f_equal; exact IH]. Qed.

Lemma prefix_cons (a b : ascii) (s1 s2 : string) :
  prefix (String a s1) (String b s2)
  = if ascii_dec a b then prefix s1 s2 else false.
Proof. reflexivity. Qed.

Lemma prefix_empty (s : string) : prefix "" s = true.
Proof. destruct s; reflexivity. Qed.

Lemma prefix_space_word (o s : string) (c : ascii) :
  isword c = true -> prefix (String " " o) (String c s) = false.
Proof.
  intros H. rewrite prefix_cons.
  destruct (ascii_dec " " c) as [<-|]; [discriminate H|reflexivity].
Qed.

Section SpacedWord.
(** [old] is a word between two spaces, [" a "]. *)
Variables (a new : string).
Hypothesis a_word : all_in isword a = true.
Let old := String " " (a ++ " ").

Lemma replace_word_run (w t : string) :
  all_in isword w = true ->
  replace_from old new 0 (w ++ t) = w ++ replace_from old new 0 t.
Proof.
  induction w as [|c w IH]; intros H; simpl in H; [reflexivity|].
  apply andb_prop in H. destruct H as [Hc Hw].
  change (String c w ++ t) with (String c (w ++ t)).
  cbn [replace_from]. unfold old at 1. rewrite prefix_space_word by exact Hc.
  rewrite IH by exact Hw. reflexivity.
Qed.

Lemma replace_word (w : string) :
  all_in isword w = true -> replace_from old new 0 w = w.
Proof.
  intros H. pose proof (replace_word_run w "" H) as R.
  rewrite append_empty_r in R. rewrite R. cbn [replace_from].
  apply append_empty_r.
Qed.

Lemma replace_skip (w t : string) :
  replace_from old new (String.length w) (w ++ t) = replace_from old new 0 t.
Proof.
  induction w as [|c w IH]; simpl.
  - destruct t; reflexivity.
  - exact IH.
Qed.

Lemma prefix_word_space :
  forall (b x t : string),
    all_in isword b = true -> all_in isword x = true ->
    prefix (b ++ " ") (x ++ String " " t) = String.eqb x b.
Proof.
  induction b as [|c b IH]; intros [|d x] t Hb Hx;
    cbn [all_in append String.eqb] in *.
  - rewrite prefix_cons.
    destruct (ascii_dec " " " "); [apply prefix_empty|congruence].
  - apply andb_prop in Hx. destruct Hx as [Hd _].
    apply prefix_space_word. exact Hd.
  - apply andb_prop in Hb. destruct Hb as [Hc _].
    rewrite prefix_cons.
    destruct (ascii_dec c " ") as [->|]; [discriminate Hc|reflexivity].
  - apply andb_prop in Hb. destruct Hb as [_ Hb].
    apply andb_prop in Hx. destruct Hx as [_ Hx].
    rewrite prefix_cons.
    destruct (ascii_dec c d) as [->|N].
    + rewrite Ascii.eqb_refl. apply IH; assumption.
    + destruct (Ascii.eqb d c) eqn:E; [|reflexivity].
      apply Ascii.eqb_eq in E. congruence.
Qed.

Lemma prefix_word_end :
  forall (b g : string),
    all_in isword g = true -> prefix (b ++ " ") g = false.
Proof.
  induction b as [|c b IH]; intros [|d g] Hg;
    cbn [all_in append] in *; try reflexivity.
  - apply andb_prop in Hg. destruct Hg as [Hd _].
    apply prefix_space_word. exact Hd.
  - apply andb_prop in Hg. destruct Hg as [_ Hg].
    rewrite prefix_cons.
    destruct (ascii_dec c d); [apply IH; exact Hg|reflexivity].
Qed.

Variable group : string.
Hypothesis group_word : all_in isword group = true.
Hypothesis a_not_in : String.eqb "in" a = false.
Hypothesis a_not_each : String.eqb "each" a = false.

Lemma replace_tail_group :
  replace_from old new 0 (" " ++ group) = " " ++ group.
Proof.
  change (" " ++ group) with (String " " group).
  cbn [replace_from]. unfold old at 1.
  change (prefix (String " " (a ++ " ")) (String " " group))
    with (prefix (a ++ " ") group).
  rewrite prefix_word_end by exact group_word.
  rewrite replace_word by exact group_word. reflexivity.
Qed.

Lemma replace_tail_each :
  replace_from old new 0 (" each " ++ group) = " each " ++ group.
Proof.
  change (" each " ++ group) with (String " " ("each" ++ String " " group)).
  cbn [replace_from]. unfold old at 1.
  change (prefix (String " " (a ++ " ")) (String " " ("each" ++ String " " group)))
    with (prefix (a ++ " ") ("each" ++ String " " group)).
  rewrite prefix_word_space by (exact a_word || reflexivity).
  rewrite a_not_each.
  rewrite replace_word_run by reflexivity.
  change (String " " group) with (" " ++ group).
  rewrite replace_tail_group. reflexivity.
Qed.

Lemma replace_tail_in_each :
  replace_from old new 0 ("in each " ++ group) = "in each " ++ group.
Proof.
  change ("in each " ++ group) with ("in" ++ " each " ++ group).
  rewrite replace_word_run by reflexivity.
  rewrite replace_tail_each. reflexivity.
Qed.

Lemma replace_tail :
  replace_from old new 0 (" in each " ++ group) = " in each " ++ group.
Proof.
  change (" in each " ++ group) with (String " " ("in" ++ String " " ("each " ++ group))).
  cbn [replace_from]. unfold old at 1.
  change (prefix (String " " (a ++ " ")) (String " " ("in" ++ String " " ("each " ++ group))))
    with (prefix (a ++ " ") ("in" ++ String " " ("each " ++ group))).
  rewrite prefix_word_space by (exact a_word || reflexivity).
  rewrite a_not_in.
  change ("in" ++ String " " ("each " ++ group)) with ("in each " ++ group).
  rewrite replace_tail_in_each. reflexivity.
Qed.

(** One replacement of Pattern 8 on ["count x in each group"]. *)
Lemma replace_count (x : string) :
  all_in isword x = true ->
  replace ("count " ++ x ++ " in each " ++ group) (" " ++ a ++ " ") new
  = if String.eqb x a
    then "count" ++ new ++ "in each " ++ group
    else "count " ++ x ++ " in each " ++ group.
Proof.
  intros Hx. unfold replace.
  change (" " ++ a ++ " ") with old.
  change ("count " ++ x ++ " in each " ++ group)
    with ("count" ++ String " " (x ++ String " " ("in each " ++ group))).
  rewrite replace_word_run by reflexivity.
  cbn [replace_from]. unfold old at 1.
  change (prefix (String " " (a ++ " ")) (String " " (x ++ String " " ("in each " ++ group))))
    with (prefix (a ++ " ") (x ++ String " " ("in each " ++ group))).
  rewrite prefix_word_space by assumption.
  destruct (String.eqb x a) eqn:E.
  - apply String.eqb_eq in E. subst x.
    replace (String.length old - 1)
      with (String.length (a ++ " ")) by (unfold old; simpl; lia).
    change (a ++ String " " ("in each " ++ group))
      with (a ++ " " ++ "in each " ++ group).
    rewrite (append_assoc a " " ("in each " ++ group)).
    rewrite replace_skip, replace_tail_in_each.
    reflexivity.
  - rewrite replace_word_run by exact Hx.
    change (String " " ("in each " ++ group)) with (" in each " ++ group).
    rewrite replace_tail. reflexivity.
Qed.
End SpacedWord.

Lemma replace_count_other (a new group x : string) :
  all_in isword a = true -> String.eqb "in" a = false -> String.eqb "each" a = false ->
  all_in isword group = true -> all_in isword x = true ->
  String.eqb x a = false ->
  replace ("count " ++ x ++ " in each " ++ group) (" " ++ a ++ " ") new
  = "count " ++ x ++ " in each " ++ group.
Proof.
  intros Ha Hin Heach Hg Hx E.
  rewrite replace_count by assumption. rewrite E. reflexivity.
Qed.

Lemma replace_count_same (a b group : string) :
  all_in isword a = true -> String.eqb "in" a = false -> String.eqb "each" a = false ->
  all_in isword group = true ->
  replace ("count " ++ a ++ " in each " ++ group) (" " ++ a ++ " ") (" " ++ b ++ " ")
  = "count " ++ b ++ " in each " ++ group.
Proof.
  intros Ha Hin Heach Hg.
  rewrite replace_count by assumption. rewrite String.eqb_refl.
  cbn [append]. rewrite <- append_assoc. reflexivity.
Qed.

Ltac keep_count :=
  rewrite replace_count_other by (assumption || reflexivity).

(** Pattern 8 on the output of Pattern 0 writes out the item when it is one
    of the five abbreviations and changes nothing else. *)
Lemma pattern_8_count (item group : string) :
  all_in isword item = true -> all_in isword group = true ->
  pattern_8 ("count " ++ item ++ " in each " ++ group)
  = "count " ++ expanded item ++ " in each " ++ group.
Proof.
  intros Hi Hg. unfold pattern_8, replacements, expanded.
  cbn [fold_left fst snd].
  change " exp " with (" " ++ "exp" ++ " ").
  change " perf " with (" " ++ "perf" ++ " ").
  change " dept " with (" " ++ "dept" ++ " ").
  change " sal " with (" " ++ "sal" ++ " ").
  change " avg " with (" " ++ "avg" ++ " ").
  change " experience " with (" " ++ "experience" ++ " ").
  change " performance " with (" " ++ "performance" ++ " ").
  change " department " with (" " ++ "department" ++ " ").
  change " salary " with (" " ++ "salary" ++ " ").
  change " average " with (" " ++ "average" ++ " ").
  destruct (String.eqb item "exp") eqn:E1.
  { apply String.eqb_eq in E1. subst item.
    rewrite replace_count_same by (assumption || reflexivity).
    repeat keep_count. reflexivity. }
  keep_count.
  destruct (String.eqb item "perf") eqn:E2.
  { apply String.eqb_eq in E2. subst item.
    rewrite replace_count_same by (assumption || reflexivity).
    repeat keep_count. reflexivity. }
  keep_count.
  destruct (String.eqb item "dept") eqn:E3.
  { apply String.eqb_eq in E3. subst item.
    rewrite replace_count_same by (assumption || reflexivity).
    repeat keep_count. reflexivity. }
  keep_count.
  destruct (String.eqb item "sal") eqn:E4.
  { apply String.eqb_eq in E4. subst item.
    rewrite replace_count_same by (assumption || reflexivity).
    repeat keep_count. reflexivity. }
  keep_count.
  destruct (String.eqb item "avg") eqn:E5.
  { apply String.eqb_eq in E5. subst item.
    rewrite replace_count_same by (assumption || reflexivity).
    reflexivity. }
  keep_count. reflexivity.
Qed.

(** ** Pattern 0 *)

Section HowManyPrefix.
Variable t : string.
Let ql := "how many " ++ t.

Lemma how_many_skips_0c q : pattern_0c ql q = Ok q.
Proof. reflexivity. Qed.
Lemma how_many_skips_0d q : pattern_0d ql q = Ok q.
Proof. reflexivity. Qed.
Lemma how_many_skips_0e q : pattern_0e ql q = Ok q.
Proof. reflexivity. Qed.
Lemma how_many_skips_0f q : pattern_0f ql q = Ok q.
Proof. reflexivity. Qed.
Lemma how_many_skips_0g q : pattern_0g ql q = Ok q.
Proof. reflexivity. Qed.
Lemma how_many_skips_0h q : pattern_0h ql q = Ok q.
Proof. reflexivity. Qed.
Lemma how_many_skips_0i q : pattern_0i ql q = Ok q.
Proof. reflexivity. Qed.
Lemma how_many_skips_0j q : pattern_0j ql q = Ok q.
Proof. reflexivity. Qed.
Lemma how_many_skips_1 q : pattern_1 ql q = Ok q.
Proof. reflexivity. Qed.
Lemma how_many_skips_2 q : pattern_2 ql q = Ok q.
Proof. reflexivity. Qed.
Lemma how_many_skips_3 q : pattern_3 ql q = Ok q.
Proof. reflexivity. Qed.
Lemma how_many_skips_4 q : pattern_4 ql q = Ok q.
Proof. reflexivity. Qed.
Lemma how_many_skips_5 q : pattern_5 ql q = Ok q.
Proof. reflexivity. Qed.
Lemma how_many_skips_6 q : pattern_6 ql q = Ok q.
Proof. reflexivity. Qed.
Lemma how_many_no_action :
  existsb (fun word => startswith ql word) action_words = false.
Proof. reflexivity. Qed.
End HowManyPrefix.

(** C1, as amended: when the stripped, lower-cased question matches
    Pattern 0 with groups [item] and [group] and contains none of "sort",
    "filter", "where", "group", [normalize_query] returns
    "count {item} in each {group}" with the item written out by Pattern 8 if
    it is one of exp, perf, dept, sal, avg; no other rule changes it. *)
Theorem how_many_in_each_normalized (question item group : string) :
  groups_of how_many_grouped (lower (strip question)) = Some [item; group] ->
  existsb (fun word => contains word (lower (strip question))) filter_words = false ->
  normalize_query question
  = Ok ("count " ++ expanded item ++ " in each " ++ group).
Proof.
  intros H F.
  destruct (how_many_grouped_inv _ _ _ H) as (rest & E & Wi & Wg).
  unfold normalize_query, pattern_0.
  unfold groups_of in H.
  destruct (re_match how_many_grouped (lower (strip question))) as [m|];
    [|discriminate].
  cbn [option_map] in H. injection H as H.
  unfold groups2. rewrite H. cbn [bind].
  rewrite E in *.
  rewrite how_many_skips_0c. cbn [bind].
  rewrite how_many_skips_0d. cbn [bind].
  rewrite how_many_skips_0e. cbn [bind].
  rewrite how_many_skips_0f. cbn [bind].
  rewrite how_many_skips_0g. cbn [bind].
  rewrite how_many_skips_0h. cbn [bind].
  rewrite how_many_skips_0i. cbn [bind].
  rewrite how_many_skips_0j. cbn [bind].
  rewrite how_many_skips_1. cbn [bind].
  rewrite how_many_skips_2. cbn [bind].
  rewrite how_many_skips_3. cbn [bind].
  rewrite how_many_skips_4. cbn [bind].
  rewrite how_many_skips_5. cbn [bind].
  rewrite how_many_skips_6. cbn [bind].
  unfold pattern_7. rewrite how_many_no_action, F. cbn [negb bind].
  rewrite pattern_8_count by assumption. reflexivity.
Qed.

Lemma how_many_in_each_normalized_witness :
  normalize_query "  How many Employees in each Department, please?"
  = Ok "count employees in each department".
Proof.
  apply (how_many_in_each_normalized
           "  How many Employees in each Department, please?"
           "employees" "department"); vm_compute; reflexivity.
Defined.

(** C1 as stated fails: an abbreviated item is written out by Pattern 8, and
    a question that contains "group" is given the prefix "show " by
    Pattern 7. *)
Lemma how_many_in_each_counterexample :
  (groups_of how_many_grouped (lower (strip "how many exp in each dept"))
   = Some ["exp"; "dept"]
   /\ normalize_query "how many exp in each dept" = Ok "count experience in each dept"
   /\ "count experience in each dept" <> "count exp in each dept")
  /\ (groups_of how_many_grouped (lower (strip "how many employees in each group"))
      = Some ["employees"; "group"]
      /\ normalize_query "how many employees in each group"
         = Ok "show count employees in each group"
      /\ "show count employees in each group" <> "count employees in each group").
Proof.
  repeat split; try (vm_compute; reflexivity); discriminate.
Qed.

(** ** Pattern 0f *)

(** C2: on "where is bob" the question matches Pattern 0f, whose output is
    "show rows where bob"; Pattern 7 then reads the original text, finds
    "where" in it and no action word at its head, and puts a second "show "
    in front. *)
Theorem where_is_gets_second_show :
  groups_of where_pattern (lower (strip "where is bob")) = Some ["bob"]
  /\ pattern_0f (lower (strip "where is bob")) (strip "where is bob")
     = Ok "show rows where bob"
  /\ normalize_query "where is bob" = Ok "show show rows where bob".
Proof.
  repeat split; vm_compute; reflexivity.
Qed.

(** A match of Pattern 0f: the text begins with "where is " or
    "where are ". *)
Lemma where_pattern_inv (s : string) (m : match_object) :
  re_match where_pattern s = Some m ->
  exists t, s = "where is " ++ t \/ s = "where are " ++ t.
Proof.
  unfold re_match, match_at, where_pattern.
  cbn [run Nat.eqb].
  destruct (chop "where " s) as [t1|] eqn:E1; [|discriminate].
  apply chop_inv in E1. subst s.
  destruct (chop "is" t1) as [t2|] eqn:E2.
  - apply chop_inv in E2. subst t1.
    destruct (chop " " t2) as [t3|] eqn:E3.
    + apply chop_inv in E3. subst t2. intros _. exists t3. left. reflexivity.
    + destruct (chop "are" ("is" ++ t2)) eqn:E4; [|discriminate].
      discriminate E4.
  - destruct (chop "are" t1) as [t2|] eqn:E4; [|discriminate].
    apply chop_inv in E4. subst t1.
    destruct (chop " " t2) as [t3|] eqn:E3; [|discriminate].
    apply chop_inv in E3. subst t2. intros _. exists t3. right. reflexivity.
Qed.

Section WherePrefix.
Variable t : string.
Variable be : string.
Hypothesis be_is_or_are : be = "is " \/ be = "are ".
Let ql := "where " ++ be ++ t.

Ltac both := destruct be_is_or_are as [E|E]; unfold ql; rewrite E; reflexivity.

Lemma where_skips_0 q : pattern_0 ql q = Ok q.
Proof. both. Qed.
Lemma where_skips_0c q : pattern_0c ql q = Ok q.
Proof. both. Qed.
Lemma where_skips_0d q : pattern_0d ql q = Ok q.
Proof. both. Qed.
Lemma where_skips_0e q : pattern_0e ql q = Ok q.
Proof. both. Qed.
Lemma where_skips_0g q : pattern_0g ql q = Ok q.
Proof. both. Qed.
Lemma where_skips_0h q : pattern_0h ql q = Ok q.
Proof. both. Qed.
Lemma where_skips_0i q : pattern_0i ql q = Ok q.
Proof. both. Qed.
Lemma where_skips_0j q : pattern_0j ql q = Ok q.
Proof. both. Qed.
Lemma where_skips_1 q : pattern_1 ql q = Ok q.
Proof. both. Qed.
Lemma where_skips_2 q : pattern_2 ql q = Ok q.
Proof. both. Qed.
Lemma where_skips_3 q : pattern_3 ql q = Ok q.
Proof. both. Qed.
Lemma where_skips_4 q : pattern_4 ql q = Ok q.
Proof. both. Qed.
Lemma where_skips_5 q : pattern_5 ql q = Ok q.
Proof. both. Qed.
Lemma where_skips_6 q : pattern_6 ql q = Ok q.
Proof. both. Qed.

(** Pattern 7 reads the original text: no action word at its head, and
    "where" in it. *)
Lemma where_fires_7 q : pattern_7 ql q = Ok ("show " ++ q).
Proof.
  unfold pattern_7.
  replace (existsb (fun word => startswith ql word) action_words) with false
    by (symmetry; both).
  cbn [negb].
  replace (existsb (fun word => contains word ql) filter_words) with true;
    [reflexivity|].
  symmetry. apply existsb_exists. exists "where". split.
  - simpl. auto.
  - unfold ql. cbn [append contains]. rewrite !prefix_cons.
    repeat match goal with
           | |- context [ascii_dec ?a ?a] =>
               destruct (ascii_dec a a); [|congruence]
           end.
    rewrite prefix_empty. reflexivity.
Qed.
End WherePrefix.

(** A replacement of [" a "] steps over a blank followed by another word. *)
Lemma replace_over_word (a new x t : string) :
  all_in isword a = true -> all_in isword x = true ->
  String.eqb x a = false ->
  replace_from (String " " (a ++ " ")) new 0 (String " " (x ++ String " " t))
  = String " " (x ++ replace_from (String " " (a ++ " ")) new 0 (String " " t)).
Proof.
  intros Ha Hx E.
  cbn [replace_from]. rewrite prefix_cons.
  destruct (ascii_dec " " " ") as [_|N]; [|congruence].
  rewrite prefix_word_space by assumption. rewrite E.
  rewrite replace_word_run by assumption. reflexivity.
Qed.

Lemma replace_blank_head (old b t : string) :
  exists t', replace_from old (String " " b) 0 (String " " t) = String " " t'.
Proof.
  cbn [replace_from].
  destruct (prefix old (String " " t)); eexists; reflexivity.
Qed.

Lemma show_show_shape (t : string) :
  "show show rows where " ++ t
  = "show" ++ String " " ("show" ++ String " " ("rows"
      ++ String " " ("where" ++ String " " t))).
Proof. reflexivity. Qed.

(** One replacement of Pattern 8 keeps the head "show show rows where ". *)
Lemma replace_keeps_show_show (a b t : string) :
  all_in isword a = true ->
  String.eqb "show" a = false -> String.eqb "rows" a = false ->
  String.eqb "where" a = false ->
  exists t',
    replace ("show show rows where " ++ t) (String " " (a ++ " ")) (String " " b)
    = "show show rows where " ++ t'.
Proof.
  intros Ha Hs Hr Hw. unfold replace.
  destruct (replace_blank_head (String " " (a ++ " ")) b t) as [t' E].
  exists t'.
  rewrite (show_show_shape t), (show_show_shape t').
  rewrite replace_word_run by reflexivity. f_equal.
  rewrite replace_over_word by (assumption || reflexivity). do 2 f_equal.
  rewrite replace_over_word by (assumption || reflexivity). do 2 f_equal.
  rewrite replace_over_word by (assumption || reflexivity). do 2 f_equal.
  exact E.
Qed.

Lemma pattern_8_keeps_show_show (t : string) :
  exists t',
    pattern_8 ("show show rows where " ++ t) = "show show rows where " ++ t'.
Proof.
  unfold pattern_8, replacements. cbn [fold_left fst snd].
  destruct (replace_keeps_show_show "exp" "experience " t) as [t1 E1];
    try reflexivity.
  change (String " " ("exp" ++ " ")) with " exp " in E1.
  change (String " " "experience ") with " experience " in E1. rewrite E1.
  destruct (replace_keeps_show_show "perf" "performance " t1) as [t2 E2];
    try reflexivity.
  change (String " " ("perf" ++ " ")) with " perf " in E2.
  change (String " " "performance ") with " performance " in E2. rewrite E2.
  destruct (replace_keeps_show_show "dept" "department " t2) as [t3 E3];
    try reflexivity.
  change (String " " ("dept" ++ " ")) with " dept " in E3.
  change (String " " "department ") with " department " in E3. rewrite E3.
  destruct (replace_keeps_show_show "sal" "salary " t3) as [t4 E4];
    try reflexivity.
  change (String " " ("sal" ++ " ")) with " sal " in E4.
  change (String " " "salary ") with " salary " in E4. rewrite E4.
  destruct (replace_keeps_show_show "avg" "average " t4) as [t5 E5];
    try reflexivity.
  change (String " " ("avg" ++ " ")) with " avg " in E5.
  change (String " " "average ") with " average " in E5. rewrite E5.
  eauto.
Qed.

(** Every question that matches Pattern 0f comes out with the doubled
    "show": the output begins "show show rows where", so it is never
    "show rows where {condition}". *)
Lemma where_always_gets_second_show (question : string) (m : match_object) :
  re_match where_pattern (lower (strip question)) = Some m ->
  exists rest,
    normalize_query question = Ok ("show show rows where " ++ rest)
    /\ forall condition,
        "show show rows where " ++ rest <> "show rows where " ++ condition.
Proof.
  intros H. destruct (where_pattern_inv _ _ H) as (t & E).
  assert (exists be, (be = "is " \/ be = "are ")
                     /\ lower (strip question) = "where " ++ be ++ t)
    as (be & Hbe & E').
  { destruct E as [E|E]; [exists "is "|exists "are "]; auto. }
  unfold normalize_query.
  assert (F : pattern_0f (lower (strip question)) (strip question)
              = Ok ("show rows where "
                    ++ replace (replace (lower (strip question)) "where is " "")
                               "where are " "")).
  { unfold pattern_0f. rewrite H. reflexivity. }
  revert F. generalize (replace (replace (lower (strip question)) "where is " "")
                                "where are " "").
  intros condition F.
  rewrite E' in *.
  rewrite where_skips_0 by exact Hbe. cbn [bind].
  rewrite where_skips_0c by exact Hbe. cbn [bind].
  rewrite where_skips_0d by exact Hbe. cbn [bind].
  rewrite where_skips_0e by exact Hbe. cbn [bind].
  rewrite F. cbn [bind].
  rewrite where_skips_0g by exact Hbe. cbn [bind].
  rewrite where_skips_0h by exact Hbe. cbn [bind].
  rewrite where_skips_0i by exact Hbe. cbn [bind].
  rewrite where_skips_0j by exact Hbe. cbn [bind].
  rewrite where_skips_1 by exact Hbe. cbn [bind].
  rewrite where_skips_2 by exact Hbe. cbn [bind].
  rewrite where_skips_3 by exact Hbe. cbn [bind].
  rewrite where_skips_4 by exact Hbe. cbn [bind].
  rewrite where_skips_5 by exact Hbe. cbn [bind].
  rewrite where_skips_6 by exact Hbe. cbn [bind].
  rewrite where_fires_7 by exact Hbe. cbn [bind].
  change ("show " ++ "show rows where " ++ condition)
    with ("show show rows where " ++ condition).
  destruct (pattern_8_keeps_show_show condition) as [rest ->].
  exists rest. split; [reflexivity|]. intros c. discriminate.
Qed.

(** ** Running the normaliser twice *)

(** C3: [normalize_query] is not idempotent: a second run changes the
    output of the first on "top 5 by revenue". *)
Theorem normalize_query_not_idempotent :
  exists s once twice,
    normalize_query s = Ok once
    /\ normalize_query once = Ok twice
    /\ twice <> once.
Proof.
  exists "top 5 by revenue",
         "sort by revenue descending and show first 5 rows",
         "show sort by revenue descending and show first 5 rows".
  repeat split; try (vm_compute; reflexivity). discriminate.
Qed.

(** ** Examples *)

(** The examples of the specification. *)
Example normalize_average_salary :
  normalize_query "What is the average salary" = Ok "calculate the average of salary".
Proof. vm_compute. reflexivity. Qed.

Example normalize_maximum_salary :
  normalize_query "What is the maximum salary"
  = Ok "show the row where salary is maximum".
Proof. vm_compute. reflexivity. Qed.

Example normalize_highest_score :
  normalize_query "who has the highest score"
  = Ok "show the row where score is maximum".
Proof. vm_compute. reflexivity. Qed.

Example normalize_top_five :
  normalize_query "top 5 by revenue"
  = Ok "sort by revenue descending and show first 5 rows".
Proof. vm_compute. reflexivity. Qed.

Example normalize_oldest_employee :
  normalize_query "Oldest Employee" = Ok "show the row where age is maximum".
Proof. vm_compute. reflexivity. Qed.

Example normalize_empty : normalize_query "" = Ok "".
Proof. vm_compute. reflexivity. Qed.

(** Three successes and two failures: 60.0 out of 5; the last two entries;
    nothing after a clear. *)
Example tracker_session :
  let h := Tracker.run [ Tracker.Log "t1" "q1" true None;
                         Tracker.Log "t2" "q2" false (Some "e2");
                         Tracker.Log "t3" "q3" true None;
                         Tracker.Log "t4" "q4" false (Some "e4");
                         Tracker.Log "t5" "q5" true None ] in
  Tracker.get_success_rate h = Ok 60%Q
  /\ Tracker.get_total_queries h = 5%Z
  /\ map Tracker.query (Tracker.get_recent_queries 2 h) = ["q4"; "q5"]
  /\ Tracker.get_total_queries (Tracker.clear_history h) = 0%Z.
Proof. repeat split; vm_compute; reflexivity. Qed.

(** ** Rounding *)

Section Rounding.
Import Float.
Local Open Scope Q_scope.

Lemma two_pow_pos (e : Z) : 0 < 2 ^ e.
Proof. apply Qpower_0_lt. reflexivity. Qed.

Lemma two_pow_add (a b : Z) : 2 ^ (a + b) == 2 ^ a * 2 ^ b.
Proof. apply Qpower_plus. discriminate. Qed.

Lemma two_pow_le (a b : Z) : (a <= b)%Z -> 2 ^ a <= 2 ^ b.
Proof. intros H. apply Qpower_le_compat_l; [exact H|discriminate]. Qed.

Lemma two_pow_inject (n : Z) : (0 <= n)%Z -> inject_Z (2 ^ n) == 2 ^ n.
Proof. intros H. apply (Zpower_Qpower 2 n H). Qed.

Lemma inject_Z_lt (a b : Z) : (a < b)%Z -> inject_Z a < inject_Z b.
Proof. intros H. rewrite <- Zlt_Qlt. exact H. Qed.

Lemma inject_Z_le (a b : Z) : (a <= b)%Z -> inject_Z a <= inject_Z b.
Proof. intros H. rewrite <- Zle_Qle. exact H. Qed.

Lemma ilog2_spec (x : Q) :
  0 < x -> 2 ^ ilog2 x <= x /\ x < 2 ^ (ilog2 x + 1).
Proof.
  destruct x as [p q]. intros Hx.
  assert (Hp : (0 < p)%Z).
  { unfold Qlt in Hx. simpl in Hx. lia. }
  unfold ilog2. cbn [Qnum Qden].
  set (lp := Z.log2 p). set (lq := Z.log2 (Z.pos q)).
  destruct (Z.log2_spec p Hp) as [P1 P2]. fold lp in P1, P2.
  destruct (Z.log2_spec (Z.pos q) eq_refl) as [Q1 Q2]. fold lq in Q1, Q2.
  assert (Lp : (0 <= lp)%Z) by apply Z.log2_nonneg.
  assert (Lq : (0 <= lq)%Z) by apply Z.log2_nonneg.
  apply inject_Z_le in P1, Q1. apply inject_Z_lt in P2, Q2.
  rewrite two_pow_inject in P1, Q1, P2, Q2 by lia.
  assert (Hq : 0 < inject_Z (Z.pos q)) by reflexivity.
  assert (Upper : p # q < 2 ^ (lp - lq + 1)).
  { rewrite (Qmake_Qdiv p q). apply Qlt_shift_div_r; [exact Hq|].
    apply Qlt_le_trans with (2 ^ Z.succ lp); [exact P2|].
    replace (Z.succ lp) with ((lp - lq + 1) + lq)%Z by lia.
    rewrite two_pow_add.
    apply Qmult_le_l; [apply two_pow_pos|exact Q1]. }
  assert (Lower : 2 ^ (lp - lq - 1) < p # q).
  { rewrite (Qmake_Qdiv p q). apply Qlt_shift_div_l; [exact Hq|].
    apply Qlt_le_trans with (2 ^ lp); [|exact P1].
    replace lp with ((lp - lq - 1) + Z.succ lq)%Z at 2 by lia.
    rewrite two_pow_add.
    apply Qmult_lt_l; [apply two_pow_pos|exact Q2]. }
  destruct (Qle_bool (2 ^ (lp - lq)) (p # q)) eqn:B.
  - apply Qle_bool_iff in B. split; assumption.
  - split; [apply Qlt_le_weak; exact Lower|].
    replace (lp - lq - 1 + 1)%Z with (lp - lq)%Z by lia.
    apply Qnot_le_lt. intros C. apply Qle_bool_iff in C. congruence.
Qed.

Lemma rne_le_succ_floor (y : Q) : (rne y <= Qfloor y + 1)%Z.
Proof.
  unfold rne. destruct (y - inject_Z (Qfloor y) ?= 1 # 2); try lia.
  destruct (Z.even (Qfloor y)); lia.
Qed.

Lemma rne_ge_floor (y : Q) : (Qfloor y <= rne y)%Z.
Proof.
  unfold rne. destruct (y - inject_Z (Qfloor y) ?= 1 # 2); try lia.
  destruct (Z.even (Qfloor y)); lia.
Qed.

Lemma rne_le (y : Q) (M : Z) : y <= inject_Z M -> (rne y <= M)%Z.
Proof.
  intros H.
  assert (F : (Qfloor y <= M)%Z).
  { rewrite <- (Qfloor_Z M). apply Qfloor_resp_le. exact H. }
  destruct (Z.eq_dec (Qfloor y) M) as [E|N].
  - unfold rne. rewrite E.
    destruct (Qcompare_spec (y - inject_Z M) (1 # 2)); [lra|lia|lra].
  - pose proof (rne_le_succ_floor y). lia.
Qed.

Lemma rne_nonneg (y : Q) : 0 <= y -> (0 <= rne y)%Z.
Proof.
  intros H. pose proof (rne_ge_floor y).
  assert ((0 <= Qfloor y)%Z).
  { change 0%Z with (Qfloor 0). apply Qfloor_resp_le. exact H. }
  lia.
Qed.

(** The scaled significand lies between [2^52] and [2^53]. *)
Lemma scaled_range (x : Q) :
  0 < x ->
  2 ^ 52 <= x / 2 ^ (ilog2 x - 52) /\ x / 2 ^ (ilog2 x - 52) < 2 ^ 53.
Proof.
  intros Hx. destruct (ilog2_spec x Hx) as [L U].
  set (e := (ilog2 x - 52)%Z).
  replace (ilog2 x) with (52 + e)%Z in L by (unfold e; lia).
  replace (ilog2 x + 1)%Z with (53 + e)%Z in U by (unfold e; lia).
  rewrite two_pow_add in L, U.
  split.
  - apply Qle_shift_div_l; [apply two_pow_pos|exact L].
  - apply Qlt_shift_div_r; [apply two_pow_pos|exact U].
Qed.

Lemma round_pos_nonneg (x : Q) : 0 < x -> 0 <= round_pos x.
Proof.
  intros Hx. unfold round_pos.
  apply Qmult_le_0_compat; [|apply Qlt_le_weak, two_pow_pos].
  change 0 with (inject_Z 0). apply inject_Z_le, rne_nonneg.
  destruct (scaled_range x Hx) as [L _].
  apply Qle_trans with (2 ^ 52); [discriminate|exact L].
Qed.

(** Rounding does not cross a value [M * 2^E] whose significand [M] has 53
    bits. *)
Lemma round_pos_le (x : Q) (M E : Z) :
  0 < x ->
  (2 ^ 52 <= M < 2 ^ 53)%Z ->
  x <= inject_Z M * 2 ^ E ->
  round_pos x <= inject_Z M * 2 ^ E.
Proof.
  intros Hx HM Hb. destruct (scaled_range x Hx) as [L U].
  unfold round_pos. set (e := (ilog2 x - 52)%Z) in *.
  set (y := x / 2 ^ e) in *.
  assert (Pe : 0 < 2 ^ e) by apply two_pow_pos.
  assert (PE : 0 < 2 ^ E) by apply two_pow_pos.
  assert (Xy : x == y * 2 ^ e).
  { unfold y. field. intros C. rewrite C in Pe. discriminate Pe. }
  assert (M52 : 2 ^ 52 <= inject_Z M).
  { change (2 ^ 52) with (inject_Z (2 ^ 52)). apply inject_Z_le. lia. }
  assert (M53 : inject_Z M < 2 ^ 53).
  { change (2 ^ 53) with (inject_Z (2 ^ 53)). apply inject_Z_lt. lia. }
  destruct (Z.compare_spec e E) as [EQ|LT|GT].
  - subst E. apply Qmult_le_r; [exact Pe|].
    apply inject_Z_le, rne_le.
    apply (Qmult_le_r _ _ (2 ^ e)); [exact Pe|].
    rewrite <- Xy. exact Hb.
  - assert (R : (rne y <= 2 ^ 53)%Z).
    { apply rne_le. apply Qlt_le_weak. exact U. }
    apply inject_Z_le in R.
    apply Qle_trans with (inject_Z (2 ^ 53) * 2 ^ e).
    { apply Qmult_le_r; [exact Pe|exact R]. }
    apply Qle_trans with (2 ^ 52 * 2 ^ (e + 1)).
    { rewrite two_pow_add. change (inject_Z (2 ^ 53)) with (2 ^ 52 * 2 ^ 1).
      rewrite (Qmult_comm (2 ^ e)). rewrite Qmult_assoc. apply Qle_refl. }
    apply Qle_trans with (2 ^ 52 * 2 ^ E).
    { apply Qmult_le_l; [reflexivity|]. apply two_pow_le. lia. }
    apply Qmult_le_r; [exact PE|exact M52].
  - exfalso.
    assert (C : inject_Z M * 2 ^ E < x).
    { apply Qlt_le_trans with (2 ^ 53 * 2 ^ E).
      { apply Qmult_lt_r; [exact PE|exact M53]. }
      apply Qle_trans with (2 ^ 52 * 2 ^ (E + 1)).
      { rewrite two_pow_add. change (2 ^ 53) with (2 ^ 52 * 2 ^ 1).
        rewrite (Qmult_comm (2 ^ E)). rewrite Qmult_assoc. apply Qle_refl. }
      apply Qle_trans with (2 ^ 52 * 2 ^ e).
      { apply Qmult_le_l; [reflexivity|]. apply two_pow_le. lia. }
      rewrite Xy. apply Qmult_le_r; [exact Pe|exact L]. }
    lra.
Qed.

Lemma round_bounds (x : Q) (M E : Z) :
  (2 ^ 52 <= M < 2 ^ 53)%Z ->
  0 <= x -> x <= inject_Z M * 2 ^ E ->
  0 <= round x /\ round x <= inject_Z M * 2 ^ E.
Proof.
  intros HM H0 Hb. unfold round.
  destruct x as [p q]. cbn [Qnum]. destruct p as [|p|p].
  - split; [apply Qle_refl|].
    apply Qle_trans with (0 # q); [discriminate|exact Hb].
  - rewrite Qred_correct. split.
    + apply round_pos_nonneg. reflexivity.
    + apply round_pos_le; [reflexivity|exact HM|exact Hb].
  - exfalso. unfold Qle in H0. simpl in H0. lia.
Qed.
End Rounding.

(** ** Conformance of the rounding model *)

(** The rounding model against the standard library's IEEE 754 model of
    binary64, on the operations of this program. *)
Example binary64_conformance :
  Float.SF2Q (Float.b64_div (Float.b64_of_int 7) (Float.b64_of_int 10))
  = Some (Float.literal 7 10)
  /\ Float.SF2Q (Float.b64_mul (Float.b64_div (Float.b64_of_int 3) (Float.b64_of_int 5))
                               (Float.b64_of_int 100))
     = Some (percent 3 5)
  /\ Float.SF2Q (Float.b64_mul (Float.b64_div (Float.b64_of_int 7) (Float.b64_of_int 100))
                               (Float.b64_of_int 100))
     = Some (percent 7 100)
  /\ Float.SF2Q (Float.b64_mul (Float.b64_div (Float.b64_of_int 1) (Float.b64_of_int 3))
                               (Float.b64_of_int 100))
     = Some (percent 1 3)
  /\ Float.SF2Q (Float.b64_mul (Float.b64_of_int 170)
                               (Float.b64_div (Float.b64_of_int 7) (Float.b64_of_int 10)))
     = Some (Float.mul (Float.of_int 170) (Float.literal 7 10)).
Proof. repeat split; vm_compute; reflexivity. Qed.

Lemma binary64_rates_agree : forallb rate_agrees (seq 1 40) = true.
Proof. vm_compute. reflexivity. Qed.

Lemma binary64_thresholds_agree : forallb threshold_agrees (seq 0 400) = true.
Proof. vm_compute. reflexivity. Qed.

(** ** The tracker *)

Section TrackerFacts.
Import Tracker.

Lemma successful_from (h : history) :
  forall acc : Z,
    fold_left (fun acc q => if success q then (acc + 1)%Z else acc) h acc
    = (acc + count_success h)%Z.
Proof.
  unfold count_success.
  induction h as [|q h IH]; intros acc; simpl.
  - lia.
  - rewrite IH. destruct (success q); simpl; lia.
Qed.

Lemma successful_is_count (h : history) : successful h = count_success h.
Proof. unfold successful. rewrite successful_from. lia. Qed.

Lemma count_success_range (h : history) :
  (0 <= count_success h <= get_total_queries h)%Z.
Proof.
  unfold count_success, get_total_queries.
  pose proof (filter_length_le success h). lia.
Qed.

Lemma float_mul_comm (x y : Float.float) : Float.mul x y = Float.mul y x.
Proof.
  unfold Float.mul. f_equal. unfold Qmult. f_equal.
  - apply Z.mul_comm.
  - apply Pos.mul_comm.
Qed.

Lemma float_hundred : Float.of_int 100 = 100%Q.
Proof. vm_compute. reflexivity. Qed.

Lemma success_rate_percent (h : history) :
  get_success_rate h
  = Ok (match h with
        | [] => 0%Q
        | _ => percent (count_success h) (get_total_queries h)
        end).
Proof.
  destruct h as [|q h]; [reflexivity|].
  unfold get_success_rate, Float.truediv.
  assert (N : (get_total_queries (q :: h) =? 0)%Z = false).
  { apply Z.eqb_neq. unfold get_total_queries. simpl List.length. lia. }
  rewrite N. cbn [bind].
  rewrite successful_is_count, float_mul_comm. reflexivity.
Qed.

Lemma percent_range (part whole : Z) :
  (0 <= part <= whole)%Z -> (0 < whole)%Z ->
  (0 <= percent part whole /\ percent part whole <= 100)%Q.
Proof.
  intros Hp Hw. unfold percent, Float.mul. rewrite float_hundred.
  assert (W : (0 < inject_Z whole)%Q).
  { change 0%Q with (inject_Z 0). apply inject_Z_lt. exact Hw. }
  assert (R0 : (0 <= inject_Z part / inject_Z whole)%Q).
  { apply Qle_shift_div_l; [exact W|]. rewrite Qmult_0_l.
    change 0%Q with (inject_Z 0). apply inject_Z_le. lia. }
  assert (R1 : (inject_Z part / inject_Z whole <= inject_Z (2 ^ 52) * 2 ^ (-52))%Q).
  { apply Qle_shift_div_r; [exact W|].
    setoid_replace (inject_Z (2 ^ 52) * 2 ^ (-52) * inject_Z whole)%Q
      with (inject_Z whole) by (change (inject_Z (2 ^ 52) * 2 ^ (-52))%Q with (4503599627370496 * (1 # 4503599627370496))%Q; field).
    apply inject_Z_le. lia. }
  destruct (round_bounds _ (2 ^ 52) (-52) ltac:(lia) R0 R1) as [D0 D1].
  set (d := Float.round (inject_Z part / inject_Z whole)) in *.
  assert (D1' : (d <= 1)%Q).
  { apply Qle_trans with (inject_Z (2 ^ 52) * 2 ^ (-52))%Q; [exact D1|].
    discriminate. }
  assert (B : (100 * d <= inject_Z (100 * 2 ^ 46) * 2 ^ (-46))%Q).
  { setoid_replace (inject_Z (100 * 2 ^ 46) * 2 ^ (-46))%Q with 100%Q
      by reflexivity.
    lra. }
  assert (P : (0 <= 100 * d)%Q) by lra.
  destruct (round_bounds _ (100 * 2 ^ 46) (-46) ltac:(lia) P B) as [X0 X1].
  split; [exact X0|].
  apply Qle_trans with (inject_Z (100 * 2 ^ 46) * 2 ^ (-46))%Q; [exact X1|].
  discriminate.
Qed.

Lemma success_rate_range (h : history) :
  exists r, get_success_rate h = Ok r /\ (0 <= r)%Q /\ (r <= 100)%Q.
Proof.
  rewrite success_rate_percent.
  destruct h as [|q h].
  - exists 0%Q. repeat split; discriminate.
  - eexists. split; [reflexivity|].
    apply percent_range.
    + apply count_success_range.
    + unfold get_total_queries. simpl List.length. lia.
Qed.

(** C10: in every state reached by logging and clearing, the success rate
    is returned and lies between 0.0 and 100.0. *)
Theorem success_rate_within_bounds (ops : list op) :
  exists r, get_success_rate (run ops) = Ok r /\ (0 <= r)%Q /\ (r <= 100)%Q.
Proof. apply success_rate_range. Qed.

Lemma slice_from_zero {A : Type} (l : list A) : slice_from 0 l = l.
Proof.
  unfold slice_from. cbn [Z.ltb Z.compare].
  replace (Z.min 0 (Z.of_nat (List.length l))) with 0%Z by lia.
  reflexivity.
Qed.

(** C7: asked for zero entries, [get_recent_queries] returns the whole
    history: [-0] is [0] and the slice [history[0:]] is everything. *)
Theorem recent_zero_is_whole_history (h : history) :
  get_recent_queries 0 h = h.
Proof. unfold get_recent_queries. apply slice_from_zero. Qed.

(** For a positive count the claim of C7 holds: the last [min n (len h)]
    entries, in the order they were logged. *)
Lemma recent_positive (n : Z) (h : history) :
  (1 <= n)%Z ->
  get_recent_queries n h = last_entries (Z.to_nat n) h
  /\ List.length (get_recent_queries n h) = Nat.min (Z.to_nat n) (List.length h).
Proof.
  intros Hn. unfold get_recent_queries, slice_from, last_entries.
  replace (- n <? 0)%Z with true by (symmetry; apply Z.ltb_lt; lia).
  replace (Z.to_nat (Z.max (- n + Z.of_nat (List.length h)) 0))
    with (List.length h - Z.to_nat n) by lia.
  split; [reflexivity|]. rewrite length_skipn. lia.
Qed.
End TrackerFacts.

(** ** The validator *)

Section ValidatorFacts.
Import Utils.

Lemma isnull_all_all_false (df : DataFrame) :
  has_value df -> isnull_all_all df = false.
Proof.
  intros (col & c & Hcol & Hc & Hn). unfold isnull_all_all.
  destruct (forallb _ (columns df)) eqn:F; [|reflexivity].
  rewrite forallb_forall in F. specialize (F col Hcol).
  rewrite forallb_forall in F. specialize (F c Hc). congruence.
Qed.

Lemma isnull_all_all_true (df : DataFrame) :
  ~ has_value df -> isnull_all_all df = true.
Proof.
  intros H. unfold isnull_all_all.
  apply forallb_forall. intros col Hcol.
  apply forallb_forall. intros c Hc.
  destruct (isnull c) eqn:E; [reflexivity|].
  exfalso. apply H. exists col, c. auto.
Qed.

(** C6: an absent table, a table without rows, a table without columns and
    a table without a single value are rejected with a reason; a table with
    a row, a column and a value is accepted with the empty reason. *)
Theorem validate_dataframe_verdict :
  rejected (validate_dataframe None)
  /\ forall df : DataFrame,
      (index_len df = 0 \/ List.length (columns df) = 0 \/ ~ has_value df ->
       rejected (validate_dataframe (Some df)))
      /\ (1 <= index_len df -> 1 <= List.length (columns df) -> has_value df ->
          validate_dataframe (Some df) = (true, "")).
Proof.
  split; [split; [reflexivity|discriminate]|].
  intros df. unfold validate_dataframe, empty. split.
  - intros H.
    destruct (Nat.eqb (index_len df) 0) eqn:R; cbn [orb].
    { split; [reflexivity|discriminate]. }
    destruct (Nat.eqb (List.length (columns df)) 0) eqn:C.
    { split; [reflexivity|discriminate]. }
    apply Nat.eqb_neq in R, C.
    destruct H as [H|[H|H]]; try contradiction.
    rewrite isnull_all_all_true by exact H.
    split; [reflexivity|discriminate].
  - intros R C V.
    replace (Nat.eqb (index_len df) 0) with false
      by (symmetry; apply Nat.eqb_neq; lia).
    replace (Nat.eqb (List.length (columns df)) 0) with false
      by (symmetry; apply Nat.eqb_neq; lia).
    cbn [orb]. rewrite isnull_all_all_false by exact V. reflexivity.
Qed.

Lemma validate_dataframe_verdict_witness :
  rejected (validate_dataframe
              (Some {| index_len := 2;
                       columns := [("name", [Missing; Missing]);
                                   ("age", [Missing; Missing])] |}))
  /\ validate_dataframe
       (Some {| index_len := 2;
                columns := [("name", [Value "ann"; Missing]);
                            ("age", [Missing; Missing])] |})
     = (true, "").
Proof.
  split.
  - apply (proj2 validate_dataframe_verdict). right. right.
    intros (col & c & Hcol & Hc & Hn). simpl in Hcol.
    destruct Hcol as [<-|[<-|[]]]; simpl in Hc;
      destruct Hc as [<-|[<-|[]]]; discriminate Hn.
  - apply (proj2 validate_dataframe_verdict); simpl; try lia.
    exists ("name", [Value "ann"; Missing]), (Value "ann").
    simpl. auto.
Defined.
End ValidatorFacts.

(** ** The orchestrator *)

Section QueryFacts.
Import Query.
Variable str_exn : exn -> string.

Lemma effective_question_total (question : string) :
  exists sent, effective_question question = Ok sent.
Proof.
  unfold effective_question.
  destruct (normalize_query_returns question) as [n ->]. cbn [bind]. eauto.
Qed.

(** C9, as amended: when the agent raises an error that none of the three
    tests of the handler recognises, [query] reports a failure whose error
    text is the message itself if it has at most 200 characters and its
    first 200 characters followed by the hint otherwise.  The handler looks
    for "Could not parse LLM output" in the message as it is, and for
    "column" with "not found" and for "parsing" in the lower-cased message:
    these three texts are recognised in any letter case. *)
Theorem unrecognised_error_passes_through
        (self : DataAnalysisAgent) (invoke : string -> outcome)
        (question sent error_msg : string) :
  agent self = Some invoke ->
  effective_question question = Ok sent ->
  invoke (enhance sent) = Raises error_msg ->
  contains "Could not parse LLM output" error_msg = false ->
  contains "column" (lower error_msg) && contains "not found" (lower error_msg)
  = false ->
  contains "parsing" (lower error_msg) = false ->
  query str_exn self question
  = {| success := false;
       result := VNone;
       error := Some (if (len error_msg <=? 200)%Z
                      then error_msg
                      else take 200 error_msg ++ "... (Try a simpler query)") |}.
Proof.
  intros Ha Hq Hi H1 H2 H3.
  unfold query. rewrite Ha, Hq, Hi.
  unfold failure, clean_error. rewrite H1, H2, H3.
  rewrite Z.ltb_antisym. destruct (len error_msg <=? 200)%Z; reflexivity.
Qed.
End QueryFacts.

Lemma unrecognised_error_passes_through_witness :
  Query.query (fun _ => "")
    {| Query.agent := Some (fun _ => Query.Raises "Connection reset by peer");
       Query.df_columns := ["name"; "age"] |}
    "show the first rows"
  = {| Query.success := false;
       Query.result := Query.VNone;
       Query.error := Some "Connection reset by peer" |}.
Proof.
  apply (unrecognised_error_passes_through (fun _ => "")
           {| Query.agent := Some (fun _ => Query.Raises "Connection reset by peer");
              Query.df_columns := ["name"; "age"] |}
           (fun _ => Query.Raises "Connection reset by peer")
           "show the first rows" "show the first rows" "Connection reset by peer");
    vm_compute; reflexivity.
Defined.

(** C9 as stated fails: a message that spells "parsing", or "column" and
    "not found", in capitals contains none of the quoted texts and has fewer
    than 200 characters, and the handler still replaces it. *)
Lemma unrecognised_error_counterexample :
  (contains "Could not parse LLM output" "PARSING failed" = false
   /\ contains "column" "PARSING failed" = false
   /\ contains "not found" "PARSING failed" = false
   /\ contains "parsing" "PARSING failed" = false
   /\ (Query.len "PARSING failed" <=? 200)%Z = true
   /\ Query.query (fun _ => "")
        {| Query.agent := Some (fun _ => Query.Raises "PARSING failed");
           Query.df_columns := ["name"; "age"] |}
        "show the first rows"
      = {| Query.success := false;
           Query.result := Query.VNone;
           Query.error := Some "Query format issue. Try rephrasing more simply, like 'show rows where salary > 80000'." |}
   /\ "Query format issue. Try rephrasing more simply, like 'show rows where salary > 80000'."
      <> "PARSING failed")
  /\ (contains "Could not parse LLM output" "Column 'foo' NOT FOUND in frame" = false
      /\ contains "column" "Column 'foo' NOT FOUND in frame" = false
      /\ contains "not found" "Column 'foo' NOT FOUND in frame" = false
      /\ contains "parsing" "Column 'foo' NOT FOUND in frame" = false
      /\ (Query.len "Column 'foo' NOT FOUND in frame" <=? 200)%Z = true
      /\ Query.query (fun _ => "")
           {| Query.agent := Some (fun _ => Query.Raises "Column 'foo' NOT FOUND in frame");
              Query.df_columns := ["name"; "age"] |}
           "show the first rows"
         = {| Query.success := false;
              Query.result := Query.VNone;
              Query.error := Some "Column not found. Available columns are: name, age" |}
      /\ "Column not found. Available columns are: name, age"
         <> "Column 'foo' NOT FOUND in frame").
Proof.
  repeat split; try (vm_compute; reflexivity); discriminate.
Qed.

(** The binary64 product [90 * 0.7] of the standard library's IEEE 754
    model is the value the rounding model gives, and lies below 63. *)
Lemma ninety_times_seven_tenths :
  Float.SF2Q (Float.b64_mul (Float.b64_of_int 90)
                            (Float.b64_div (Float.b64_of_int 7) (Float.b64_of_int 10)))
  = Some (Float.mul (Float.of_int 90) (Float.literal 7 10))
  /\ Float.mul (Float.of_int 90) (Float.literal 7 10)
     = (8866461766385663 # 140737488355328)%Q
  /\ (Float.mul (Float.of_int 90) (Float.literal 7 10) < 63)%Q.
Proof.
  repeat split; vm_compute; reflexivity.
Qed.

(** For a question shorter than 90 characters the binary64 threshold
    [len(question) * 0.7] lies in the same unit interval as the exact 70%. *)
Lemma threshold_below_ninety :
  forallb (fun k =>
             let lq := Z.of_nat k in
             let threshold := Float.mul (Float.of_int lq) (Float.literal 7 10) in
             Qle_bool (inject_Z (7 * lq / 10)) threshold
             && negb (Qle_bool (inject_Z (7 * lq / 10 + 1)) threshold))
          (seq 0 90)
  = true.
Proof. vm_compute. reflexivity. Qed.

(** Below 90 characters the acceptance test is the one C4 states. *)
Lemma acceptance_below_ninety (normalized question : string) :
  (Query.len question < 90)%Z ->
  Query.accepts normalized question = true
  <-> normalized <> question
      /\ (7 * Query.len question < 10 * Query.len normalized)%Z.
Proof.
  intros Hlen. unfold Query.accepts, Float.int_gt, Float.ltb.
  pose proof threshold_below_ninety as T.
  rewrite forallb_forall in T.
  specialize (T (String.length question)).
  assert (I : In (String.length question) (seq 0 90)).
  { apply in_seq. unfold Query.len in Hlen. lia. }
  specialize (T I). cbn zeta in T. fold (Query.len question) in T.
  set (threshold := Float.mul (Float.of_int (Query.len question))
                              (Float.literal 7 10)) in *.
  apply andb_prop in T. destruct T as [T1 T2].
  apply Qle_bool_iff in T1. apply negb_true_iff in T2.
  assert (T2' : (threshold < inject_Z (7 * Query.len question / 10 + 1))%Q).
  { apply Qnot_le_lt. intros C. apply Qle_bool_iff in C. congruence. }
  pose proof (Z.div_mod (7 * Query.len question) 10 ltac:(lia)) as D.
  pose proof (Z.mod_pos_bound (7 * Query.len question) 10 ltac:(lia)) as B.
  rewrite andb_true_iff, negb_true_iff, String.eqb_neq, negb_true_iff.
  split; intros [N G]; (split; [exact N|]).
  - assert (L : (threshold < inject_Z (Query.len normalized))%Q).
    { apply Qnot_le_lt. intros C. apply Qle_bool_iff in C. congruence. }
    assert (Z' : (inject_Z (7 * Query.len question / 10)
                  < inject_Z (Query.len normalized))%Q)
      by (eapply Qle_lt_trans; eassumption).
    rewrite <- Zlt_Qlt in Z'. lia.
  - destruct (Qle_bool (inject_Z (Query.len normalized)) threshold) eqn:C;
      [|reflexivity].
    apply Qle_bool_iff in C.
    assert (Z' : (inject_Z (Query.len normalized)
                  < inject_Z (7 * Query.len question / 10 + 1))%Q)
      by (eapply Qle_lt_trans; eassumption).
    rewrite <- Zlt_Qlt in Z'. lia.
Qed.

(** C4: a question of 90 characters whose normalised form has 63, the
    words after the group being dropped.  63 is exactly 70% of 90, not more,
    yet the test [len(normalized) > len(question) * 0.7] holds, the binary64
    product being 62.99999999999999, and the normalised form replaces the
    question. *)
Theorem acceptance_at_exactly_seventy_percent :
  let normalized :=
    "count outstanding_customer_invoices in each regional_sales_area" in
  normalize_query long_question = Ok normalized
  /\ Query.len long_question = 90%Z
  /\ Query.len normalized = 63%Z
  /\ (10 * Query.len normalized = 7 * Query.len long_question)%Z
  /\ Query.accepts normalized long_question = true
  /\ Query.effective_question long_question = Ok normalized.
Proof.
  repeat split; vm_compute; reflexivity.
Qed.

(** * Further properties *)

(** ** Rounding is monotone *)

Section RoundingOrder.
Import Float.
Local Open Scope Q_scope.

Lemma rne_mono (x y : Q) : x <= y -> (rne x <= rne y)%Z.
Proof.
  intros H.
  assert (F : (Qfloor x <= Qfloor y)%Z) by (apply Qfloor_resp_le; exact H).
  destruct (Z.eq_dec (Qfloor x) (Qfloor y)) as [E|N].
  - unfold rne. rewrite E.
    destruct (Qcompare_spec (x - inject_Z (Qfloor y)) (1 # 2));
      destruct (Qcompare_spec (y - inject_Z (Qfloor y)) (1 # 2));
      try lra; try lia; destruct (Z.even (Qfloor y)); lia.
  - pose proof (rne_le_succ_floor x). pose proof (rne_ge_floor y). lia.
Qed.

Lemma scaled_pos (x : Q) (e : Z) : 0 < x -> x == (x / 2 ^ e) * 2 ^ e.
Proof.
  intros _. field. intros C.
  pose proof (two_pow_pos e) as P. rewrite C in P. discriminate P.
Qed.

Lemma round_pos_mono (x y : Q) :
  0 < x -> x <= y -> round_pos x <= round_pos y.
Proof.
  intros Hx Hxy.
  assert (Hy : 0 < y) by lra.
  destruct (scaled_range x Hx) as [Lx Ux].
  destruct (scaled_range y Hy) as [Ly Uy].
  destruct (ilog2_spec x Hx) as [Sx _].
  destruct (ilog2_spec y Hy) as [_ Sy].
  unfold round_pos.
  set (ex := (ilog2 x - 52)%Z) in *. set (ey := (ilog2 y - 52)%Z) in *.
  assert (Pex : 0 < 2 ^ ex) by apply two_pow_pos.
  assert (Pey : 0 < 2 ^ ey) by apply two_pow_pos.
  assert (Ord : (ilog2 x <= ilog2 y)%Z).
  { assert (L : 2 ^ ilog2 x < 2 ^ (ilog2 y + 1)) by lra.
    apply Qpower_lt_compat_l_inv in L; [lia|reflexivity]. }
  destruct (Z.eq_dec ex ey) as [E|N].
  - rewrite <- E in *. apply Qmult_le_r; [exact Pex|].
    apply inject_Z_le, rne_mono.
    apply (Qmult_le_r _ _ (2 ^ ex)); [exact Pex|].
    rewrite <- !scaled_pos by assumption. exact Hxy.
  - assert (R : (rne (x / 2 ^ ex) <= 2 ^ 53)%Z).
    { apply rne_le. apply Qlt_le_weak. exact Ux. }
    assert (R' : (2 ^ 52 <= rne (y / 2 ^ ey))%Z).
    { pose proof (rne_ge_floor (y / 2 ^ ey)).
      assert ((2 ^ 52 <= Qfloor (y / 2 ^ ey))%Z); [|lia].
      rewrite <- (Qfloor_Z (2 ^ 52)). apply Qfloor_resp_le. exact Ly. }
    apply inject_Z_le in R, R'.
    apply Qle_trans with (inject_Z (2 ^ 53) * 2 ^ ex).
    { apply Qmult_le_r; [exact Pex|exact R]. }
    apply Qle_trans with (inject_Z (2 ^ 52) * 2 ^ ey).
    2:{ apply Qmult_le_r; [exact Pey|exact R']. }
    apply Qle_trans with (2 ^ 52 * 2 ^ (ex + 1)).
    { rewrite two_pow_add. change (inject_Z (2 ^ 53)) with (2 ^ 52 * 2 ^ 1).
      rewrite (Qmult_comm (2 ^ ex)). rewrite Qmult_assoc. apply Qle_refl. }
    apply Qmult_le_l; [reflexivity|]. apply two_pow_le. unfold ex, ey in *. lia.
Qed.

Lemma round_nonneg (x : Q) : 0 <= x -> 0 <= round x.
Proof.
  intros H. unfold round. destruct x as [[|p|p] q]; cbn [Qnum].
  - apply Qle_refl.
  - rewrite Qred_correct. apply round_pos_nonneg. reflexivity.
  - exfalso. unfold Qle in H. simpl in H. lia.
Qed.

(** Rounding keeps the order of non-negative values. *)
Lemma round_mono (x y : Q) : 0 <= x -> x <= y -> round x <= round y.
Proof.
  intros Hx Hxy.
  destruct x as [[|p|p] q].
  - apply round_nonneg. apply Qle_trans with (0 # q); assumption.
  - assert (Py : 0 < y).
    { apply Qlt_le_trans with (Z.pos p # q); [reflexivity|exact Hxy]. }
    destruct y as [[|p'|p'] q']; try (exfalso; unfold Qlt in Py; simpl in Py; lia).
    unfold round. cbn [Qnum]. rewrite !Qred_correct.
    apply round_pos_mono; [reflexivity|exact Hxy].
  - exfalso. unfold Qle in Hx. simpl in Hx. lia.
Qed.

Lemma round_canonical (x : Q) : Qred (round x) = round x.
Proof.
  unfold round. destruct (Qnum x); [reflexivity| |];
    apply Qred_complete, Qred_correct.
Qed.

(** Equal non-negative values round to the same float. *)
Lemma round_eq (x y : Q) : 0 <= x -> x == y -> round x = round y.
Proof.
  intros Hx E.
  rewrite <- (round_canonical x), <- (round_canonical y).
  apply Qred_complete. apply Qle_antisym; apply round_mono; lra.
Qed.
End RoundingOrder.

(** ** More on the tracker *)

Section TrackerMore.
Import Tracker.
Local Open Scope list_scope.

Lemma slice_from_suffix {A : Type} (start : Z) (l : list A) :
  exists older, l = older ++ slice_from start l.
Proof.
  unfold slice_from.
  match goal with |- context [skipn ?k l] => exists (firstn k l) end.
  symmetry. apply firstn_skipn.
Qed.

(** X1: [log_query] adds exactly one entry, at the end: the count grows by
    one, the entries logged before are untouched, and the new entry is the
    most recent one. *)
Theorem log_query_appends (now query : string) (success : bool)
        (error_msg : option string) (h : history) :
  let logged := {| timestamp := now; query := query; success := success;
                   error := error_msg |} in
  let h' := log_query now query success error_msg h in
  get_total_queries h' = (get_total_queries h + 1)%Z
  /\ firstn (List.length h) h' = h
  /\ get_recent_queries 1 h' = [logged].
Proof.
  cbn zeta. unfold log_query, get_total_queries. repeat split.
  - rewrite length_app. simpl. lia.
  - rewrite firstn_app, Nat.sub_diag, firstn_all. simpl. apply app_nil_r.
  - unfold get_recent_queries, slice_from. cbn [Z.opp Z.ltb Z.compare].
    rewrite length_app. cbn [List.length].
    replace (Z.to_nat (Z.max (-1 + Z.of_nat (List.length h + 1)) 0))
      with (List.length h) by lia.
    rewrite skipn_app, Nat.sub_diag, skipn_all. reflexivity.
Qed.

(** X3: whatever the count, positive, zero or negative,
    [get_recent_queries] returns a final segment of the history: it never
    reorders, repeats or invents entries. *)
Theorem recent_is_suffix (n : Z) (h : history) :
  exists older, h = older ++ get_recent_queries n h.
Proof. apply slice_from_suffix. Qed.

Lemma count_success_app (h1 h2 : history) :
  count_success (h1 ++ h2) = (count_success h1 + count_success h2)%Z.
Proof. unfold count_success. rewrite filter_app, length_app. lia. Qed.

(** X4: every entry is counted either as a success by [get_success_rate] or
    listed by [get_failure_queries]; the failures listed are exactly the
    entries of the history whose flag is unset. *)
Theorem failures_complement_successes (h : history) :
  get_total_queries h
  = (successful h + Z.of_nat (List.length (get_failure_queries h)))%Z
  /\ forall q, In q (get_failure_queries h) <-> In q h /\ success q = false.
Proof.
  split.
  - rewrite successful_is_count.
    unfold get_total_queries, count_success, get_failure_queries.
    rewrite <- Nat2Z.inj_add. f_equal.
    induction h as [|q h IH]; [reflexivity|].
    cbn [filter List.length]. destruct (success q); cbn [negb List.length]; lia.
  - intros q. unfold get_failure_queries. rewrite filter_In, negb_true_iff.
    reflexivity.
Qed.

(** X5: logging a success leaves [get_failure_queries] as it was; logging a
    failure adds that entry at its end. *)
Theorem log_query_failures (now query : string) (success : bool)
        (error_msg : option string) (h : history) :
  get_failure_queries (log_query now query success error_msg h)
  = if success
    then get_failure_queries h
    else get_failure_queries h
         ++ [ {| timestamp := now; query := query; success := false;
                 error := error_msg |} ].
Proof.
  unfold get_failure_queries, log_query. rewrite filter_app. simpl.
  destruct success; simpl; [apply app_nil_r|reflexivity].
Qed.

Lemma run_app (ops1 ops2 : list op) :
  run (ops1 ++ ops2) = fold_left step ops2 (run ops1).
Proof. unfold run. apply fold_left_app. Qed.

(** X6: after [clear_history] the history is the one of the operations that
    follow: nothing logged before the clear is left. *)
Theorem clear_forgets (before after : list op) :
  run (before ++ Clear :: after) = run after.
Proof. rewrite run_app. reflexivity. Qed.

(** The number of entries after a run: the logs since the last clear. *)
Lemma total_after_logs (h : history) (ops : list op) :
  Forall (fun o => o <> Clear) ops ->
  get_total_queries (fold_left step ops h)
  = (get_total_queries h + Z.of_nat (List.length ops))%Z.
Proof.
  revert h. induction ops as [|o ops IH]; intros h F; simpl.
  - lia.
  - inversion F as [|? ? Ho F']; subst. rewrite IH by exact F'.
    destruct o as [now q s e|]; [|congruence].
    unfold get_total_queries, step, log_query. rewrite length_app. simpl. lia.
Qed.

Lemma ratio_le (a b c d : Z) :
  (0 < b)%Z -> (0 < d)%Z -> (a * d <= c * b)%Z ->
  (inject_Z a / inject_Z b <= inject_Z c / inject_Z d)%Q.
Proof.
  intros Hb Hd H.
  destruct b as [|b|b]; try lia. destruct d as [|d|d]; try lia.
  rewrite <- !Qmake_Qdiv. unfold Qle. simpl. exact H.
Qed.

Lemma ratio_nonneg (a b : Z) :
  (0 <= a)%Z -> (0 < b)%Z -> (0 <= inject_Z a / inject_Z b)%Q.
Proof.
  intros Ha Hb. destruct b as [|b|b]; try lia.
  rewrite <- Qmake_Qdiv. unfold Qle. simpl. lia.
Qed.

Lemma percent_mono (a b c d : Z) :
  (0 <= a)%Z -> (0 < b)%Z -> (0 < d)%Z -> (a * d <= c * b)%Z ->
  (percent a b <= percent c d)%Q.
Proof.
  intros Ha Hb Hd H. unfold percent, Float.mul. rewrite float_hundred.
  pose proof (ratio_nonneg a b Ha Hb) as N.
  pose proof (ratio_le a b c d Hb Hd H) as L.
  pose proof (round_nonneg _ N) as RN.
  pose proof (round_mono _ _ N L) as RL.
  apply round_mono; lra.
Qed.

Lemma percent_zero (b : Z) : percent 0 b = 0%Q.
Proof. reflexivity. Qed.

Lemma percent_all (b : Z) : (0 < b)%Z -> percent b b = 100%Q.
Proof.
  intros Hb. unfold percent.
  rewrite (round_eq (inject_Z b / inject_Z b) 1).
  - vm_compute. reflexivity.
  - apply ratio_nonneg; lia.
  - destruct b as [|b|b]; try lia. rewrite <- Qmake_Qdiv.
    unfold Qeq. simpl. lia.
Qed.

Lemma filter_none {A : Type} (f : A -> bool) (l : list A) :
  forallb (fun x => negb (f x)) l = true -> filter f l = [].
Proof.
  induction l as [|a l IH]; [reflexivity|]. cbn [forallb filter].
  intros F. apply andb_prop in F. destruct F as [Fa Fl].
  apply negb_true_iff in Fa. rewrite Fa. apply IH. exact Fl.
Qed.

Lemma total_pos (q : entry) (h : history) : (0 < get_total_queries (q :: h))%Z.
Proof. unfold get_total_queries. simpl List.length. lia. Qed.

(** X7: on a history that is not empty the success rate is exactly 100.0 when
    every entry succeeded and exactly 0.0 when none did. *)
Theorem success_rate_extremes (h : history) :
  h <> [] ->
  (forallb success h = true -> get_success_rate h = Ok 100%Q)
  /\ (forallb (fun q => negb (success q)) h = true -> get_success_rate h = Ok 0%Q).
Proof.
  intros N. rewrite success_rate_percent.
  destruct h as [|q h]; [congruence|].
  pose proof (total_pos q h) as T.
  split; intros F.
  - assert (E : count_success (q :: h) = get_total_queries (q :: h)).
    { unfold count_success, get_total_queries. f_equal. f_equal.
      apply forallb_filter_id. exact F. }
    rewrite E. rewrite percent_all by exact T. reflexivity.
  - assert (E : count_success (q :: h) = 0%Z).
    { unfold count_success.
      rewrite filter_none by exact F. reflexivity. }
    rewrite E, percent_zero. reflexivity.
Qed.

Lemma success_rate_extremes_witness :
  get_success_rate [ {| timestamp := "t1"; query := "q1"; success := true;
                        error := None |} ] = Ok 100%Q.
Proof.
  apply (success_rate_extremes
           [ {| timestamp := "t1"; query := "q1"; success := true;
                error := None |} ]); [discriminate|reflexivity].
Defined.

(** X8: logging a success never lowers the success rate and logging a failure
    never raises it, roundings included. *)
Theorem success_rate_follows_outcome (now query : string) (success : bool)
        (error_msg : option string) (h : history) :
  exists before after,
    get_success_rate h = Ok before
    /\ get_success_rate (log_query now query success error_msg h) = Ok after
    /\ if success then (before <= after)%Q else (after <= before)%Q.
Proof.
  rewrite !success_rate_percent. unfold log_query.
  set (e := {| timestamp := now; query := query; success := success;
               error := error_msg |}).
  assert (C : count_success (h ++ [e])
              = (count_success h + (if success then 1 else 0))%Z).
  { rewrite count_success_app. unfold count_success at 2. simpl.
    destruct success; reflexivity. }
  assert (T : get_total_queries (h ++ [e]) = (get_total_queries h + 1)%Z).
  { unfold get_total_queries. rewrite length_app. simpl. lia. }
  pose proof (count_success_range h) as R.
  destruct (h ++ [e]) as [|x l] eqn:Eh.
  { destruct h; discriminate Eh. }
  rewrite C, T.
  destruct h as [|q h].
  - eexists. eexists. split; [reflexivity|]. split; [reflexivity|].
    destruct success; [|apply Qle_refl].
    destruct (percent_range 1 1 ltac:(lia) ltac:(lia)) as [P _]. exact P.
  - pose proof (total_pos q h) as P.
    eexists. eexists. split; [reflexivity|]. split; [reflexivity|].
    destruct success.
    + apply percent_mono; lia || nia.
    + apply percent_mono; lia || nia.
Qed.
End TrackerMore.

(** ** Stripping *)

Lemma lstrip_starts_clean (s : string) : starts_clean (lstrip s) = true.
Proof.
  induction s as [|c s IH]; [reflexivity|]. cbn [lstrip].
  destruct (isspace c) eqn:E; [exact IH|]. cbn [starts_clean]. rewrite E. reflexivity.
Qed.

Lemma rstrip_cons (c : ascii) (s : string) :
  rstrip (String c s)
  = match rstrip s with
    | EmptyString => if isspace c then EmptyString else String c EmptyString
    | r => String c r
    end.
Proof. reflexivity. Qed.

Lemma rstrip_ends_clean (s : string) : ends_clean (rstrip s) = true.
Proof.
  induction s as [|c s IH]; [reflexivity|]. rewrite rstrip_cons.
  destruct (rstrip s) as [|d r].
  - destruct (isspace c) eqn:E; [reflexivity|]. cbn [ends_clean]. rewrite E. reflexivity.
  - exact IH.
Qed.

Lemma rstrip_starts_clean (s : string) :
  starts_clean s = true -> starts_clean (rstrip s) = true.
Proof.
  destruct s as [|c s]; [reflexivity|]. cbn [starts_clean]. intros H.
  rewrite rstrip_cons. destruct (rstrip s).
  - apply negb_true_iff in H. rewrite H. cbn [starts_clean]. rewrite H. reflexivity.
  - exact H.
Qed.

Lemma lstrip_fix (s : string) : starts_clean s = true -> lstrip s = s.
Proof.
  destruct s as [|c s]; [reflexivity|]. cbn [starts_clean lstrip]. intros H.
  apply negb_true_iff in H. rewrite H. reflexivity.
Qed.

Lemma rstrip_fix (s : string) : ends_clean s = true -> rstrip s = s.
Proof.
  induction s as [|c s IH]; [reflexivity|]. intros H. rewrite rstrip_cons.
  destruct s as [|d s].
  - cbn [ends_clean] in H. apply negb_true_iff in H. cbn [rstrip]. rewrite H. reflexivity.
  - rewrite IH by exact H. reflexivity.
Qed.

Lemma strip_fix (s : string) :
  starts_clean s = true -> ends_clean s = true -> strip s = s.
Proof.
  intros H1 H2. unfold strip. rewrite lstrip_fix by exact H1. apply rstrip_fix, H2.
Qed.

Lemma strip_clean (s : string) :
  starts_clean (strip s) = true /\ ends_clean (strip s) = true.
Proof.
  unfold strip. split.
  - apply rstrip_starts_clean, lstrip_starts_clean.
  - apply rstrip_ends_clean.
Qed.

Lemma strip_idempotent (s : string) : strip (strip s) = strip s.
Proof. destruct (strip_clean s). apply strip_fix; assumption. Qed.

(** ** Column labels *)

Lemma isspace_lower_char (c : ascii) : isspace (lower_char c) = isspace c.
Proof. destruct c as [[] [] [] [] [] [] [] []]; reflexivity. Qed.

Lemma isupper_lower_char (c : ascii) : isupper (lower_char c) = false.
Proof. destruct c as [[] [] [] [] [] [] [] []]; reflexivity. Qed.

Lemma lower_char_fix (c : ascii) : isupper c = false -> lower_char c = c.
Proof. unfold lower_char. intros ->. reflexivity. Qed.

Lemma lower_not_upper (s : string) : all_in not_upper (lower s) = true.
Proof.
  induction s as [|c s IH]; [reflexivity|]. cbn [lower all_in].
  unfold not_upper at 1. rewrite isupper_lower_char, IH. reflexivity.
Qed.

Lemma lower_fix (s : string) : all_in not_upper s = true -> lower s = s.
Proof.
  induction s as [|c s IH]; [reflexivity|]. cbn [lower all_in]. intros H.
  apply andb_prop in H. destruct H as [Hc Hs].
  apply negb_true_iff in Hc. rewrite lower_char_fix, IH by assumption. reflexivity.
Qed.

Lemma lower_starts_clean (s : string) : starts_clean (lower s) = starts_clean s.
Proof. destruct s; [reflexivity|]. cbn [lower starts_clean]. rewrite isspace_lower_char. reflexivity. Qed.

Lemma lower_ends_clean (s : string) : ends_clean (lower s) = ends_clean s.
Proof.
  induction s as [|c s IH]; [reflexivity|].
  destruct s as [|d s].
  - cbn [lower ends_clean]. rewrite isspace_lower_char. reflexivity.
  - exact IH.
Qed.

(** Replacing every blank by an underscore, character by character. *)
Lemma replace_blank_cons (c : ascii) (s : string) :
  replace_from " " "_" 0 (String c s)
  = String (if Ascii.eqb c " " then "_"%char else c) (replace_from " " "_" 0 s).
Proof.
  cbn [replace_from]. rewrite prefix_cons, prefix_empty.
  destruct (ascii_dec " " c) as [<-|N].
  - reflexivity.
  - destruct (Ascii.eqb c " ") eqn:E; [|reflexivity].
    apply Ascii.eqb_eq in E. congruence.
Qed.

Lemma replace_blank_all_in (p : ascii -> bool) (s : string) :
  p "_"%char = true ->
  (forall c, c <> " "%char -> In c (list_ascii_of_string s) -> p c = true) ->
  all_in p (replace_from " " "_" 0 s) = true.
Proof.
  intros Hu. induction s as [|c s IH]; intros H; [reflexivity|].
  rewrite replace_blank_cons. cbn [all_in].
  rewrite IH by (intros d Hd Hi; apply H; [exact Hd|right; exact Hi]).
  destruct (Ascii.eqb c " ") eqn:E; [rewrite Hu; reflexivity|].
  rewrite H; [reflexivity| |left; reflexivity].
  intros ->. discriminate E.
Qed.

Lemma all_in_In (p : ascii -> bool) (s : string) :
  all_in p s = true -> forall c, In c (list_ascii_of_string s) -> p c = true.
Proof.
  induction s as [|d s IH]; intros H c Hc; [destruct Hc|].
  cbn [all_in] in H. apply andb_prop in H. destruct H as [Hd Hs].
  destruct Hc as [<-|Hc]; [exact Hd|apply IH; assumption].
Qed.

Lemma replace_blank_fix (s : string) :
  all_in not_blank s = true -> replace s " " "_" = s.
Proof.
  unfold replace. induction s as [|c s IH]; [reflexivity|].
  cbn [all_in]. intros H. apply andb_prop in H. destruct H as [Hc Hs].
  rewrite replace_blank_cons, IH by exact Hs.
  apply negb_true_iff in Hc. rewrite Hc. reflexivity.
Qed.

Lemma replace_blank_starts_clean (s : string) :
  starts_clean s = true -> starts_clean (replace_from " " "_" 0 s) = true.
Proof.
  destruct s as [|c s]; [reflexivity|]. rewrite replace_blank_cons.
  cbn [starts_clean]. destruct (Ascii.eqb c " "); [reflexivity|auto].
Qed.

Lemma replace_blank_ends_clean (s : string) :
  ends_clean s = true -> ends_clean (replace_from " " "_" 0 s) = true.
Proof.
  induction s as [|c s IH]; [reflexivity|]. rewrite replace_blank_cons.
  destruct s as [|d s].
  - cbn [replace_from ends_clean]. destruct (Ascii.eqb c " "); [reflexivity|auto].
  - intros H. specialize (IH H). rewrite replace_blank_cons in *. exact IH.
Qed.

Lemma forallb_after_map {A B : Type} (f : A -> B) (p : B -> bool) (l : list A) :
  forallb p (map f l) = forallb (fun x => p (f x)) l.
Proof.
  induction l as [|a l IH]; [reflexivity|]. cbn [map forallb]. rewrite IH. reflexivity.
Qed.

Section UtilsMore.
Import Utils.

(** The label [normalize_column_names] writes is in normal form. *)
Lemma normalize_label_normal (name : string) : normal_label (normalize_label name).
Proof.
  unfold normalize_label, replace. destruct (strip_clean name) as [S E].
  repeat split.
  - apply replace_blank_all_in; [reflexivity|].
    intros c Hc _. unfold not_blank.
    destruct (Ascii.eqb c " ") eqn:Q; [|reflexivity].
    apply Ascii.eqb_eq in Q. contradiction.
  - apply lower_fix, replace_blank_all_in; [reflexivity|].
    intros c _. apply all_in_In, lower_not_upper.
  - apply strip_fix.
    + apply replace_blank_starts_clean. rewrite lower_starts_clean. exact S.
    + apply replace_blank_ends_clean. rewrite lower_ends_clean. exact E.
Qed.

Lemma normal_label_fix (name : string) :
  normal_label name -> normalize_label name = name.
Proof.
  intros (B & L & S). unfold normalize_label.
  rewrite S, L. apply replace_blank_fix, B.
Qed.

Lemma normalize_label_idempotent (name : string) :
  normalize_label (normalize_label name) = normalize_label name.
Proof. apply normal_label_fix, normalize_label_normal. Qed.

(** X10: [normalize_column_names] applied twice is the same as applied
    once. *)
Theorem normalize_column_names_idempotent (df : DataFrame) :
  normalize_column_names (normalize_column_names df) = normalize_column_names df.
Proof.
  unfold normalize_column_names. cbn [index_len columns]. f_equal.
  rewrite map_map. apply map_ext. intros [name cells]. cbn [fst snd].
  rewrite normalize_label_idempotent. reflexivity.
Qed.

(** X11: [normalize_column_names] changes labels only: the number of rows, the
    cells of every column and the verdict of [validate_dataframe] stay. *)
Theorem normalize_column_names_keeps_data (df : DataFrame) :
  index_len (normalize_column_names df) = index_len df
  /\ map snd (columns (normalize_column_names df)) = map snd (columns df)
  /\ validate_dataframe (Some (normalize_column_names df))
     = validate_dataframe (Some df).
Proof.
  unfold normalize_column_names. cbn [index_len columns]. repeat split.
  - rewrite map_map. reflexivity.
  - unfold validate_dataframe, empty, isnull_all_all. cbn [index_len columns].
    rewrite length_map, forallb_after_map. reflexivity.
Qed.

Lemma load_loop_none (file : uploaded_file) (todo shown : list string) :
  fst (load_loop file todo shown) = None
  <-> forallb (fun e => negb (parses file e)) todo = true.
Proof.
  revert shown. induction todo as [|e todo IH]; intros shown; cbn [load_loop forallb].
  - split; reflexivity.
  - unfold parses at 1. destruct (file e) as [df| |msg]; cbn [fst negb andb].
    + split; discriminate.
    + apply IH.
    + apply IH.
Qed.

Lemma load_loop_first (file : uploaded_file) (before : list string) :
  forall (encoding : string) (after shown : list string) (df : DataFrame),
    forallb (fun e => negb (parses file e)) before = true ->
    file encoding = Parsed df ->
    fst (load_loop file (before ++ encoding :: after) shown)
    = Some (normalize_column_names df).
Proof.
  induction before as [|e before IH]; intros encoding after shown df F P;
    cbn [app load_loop].
  - rewrite P. reflexivity.
  - cbn [forallb] in F. apply andb_prop in F. destruct F as [Fe F].
    unfold parses in Fe. destruct (file e); [discriminate Fe| |]; apply IH; assumption.
Qed.

(** X12: [load_csv_file] returns the frame read under the first encoding, in
    the order utf-8, latin-1, iso-8859-1, cp1252, that parses, with its
    labels normalised; the encodings after it are not tried. *)
Theorem load_csv_file_first_success (file : uploaded_file)
        (before after : list string) (encoding : string) (df : DataFrame) :
  encodings = (before ++ encoding :: after)%list ->
  (forall e, In e before -> parses file e = false) ->
  file encoding = Parsed df ->
  fst (load_csv_file (Some file)) = Some (normalize_column_names df).
Proof.
  intros E F P. unfold load_csv_file. rewrite E.
  apply load_loop_first; [|exact P].
  apply forallb_forall. intros e He. rewrite F by exact He. reflexivity.
Qed.

Lemma load_csv_file_first_success_witness :
  fst (load_csv_file
         (Some (fun e => if String.eqb e "latin-1"
                         then Parsed {| index_len := 1;
                                        columns := [(" Employee Name ", [Value "ann"])] |}
                         else UnicodeDecodeError)))
  = Some {| index_len := 1; columns := [("employee_name", [Value "ann"])] |}.
Proof.
  apply (load_csv_file_first_success
           (fun e => if String.eqb e "latin-1"
                     then Parsed {| index_len := 1;
                                    columns := [(" Employee Name ", [Value "ann"])] |}
                     else UnicodeDecodeError)
           ["utf-8"] ["iso-8859-1"; "cp1252"] "latin-1"
           {| index_len := 1; columns := [(" Employee Name ", [Value "ann"])] |}).
  - reflexivity.
  - intros e [<-|[]]. reflexivity.
  - reflexivity.
Defined.

(** X13: [load_csv_file] returns [None] exactly when there is no file or the
    file parses under none of the four encodings. *)
Theorem load_csv_file_none (file : option uploaded_file) :
  fst (load_csv_file file) = None
  <-> match file with
      | None => True
      | Some f => forall e, In e encodings -> parses f e = false
      end.
Proof.
  destruct file as [f|]; cbn [load_csv_file fst]; [|tauto].
  rewrite load_loop_none, forallb_forall.
  split; intros H e He; specialize (H e He).
  - apply negb_true_iff. exact H.
  - rewrite H. reflexivity.
Qed.

Lemma load_loop_shown (file : uploaded_file) (todo : list string) :
  forall shown text,
    In text (snd (load_loop file todo shown)) ->
    In text shown
    \/ exists encoding msg,
         In encoding todo /\ file encoding = Failed msg
         /\ text = "Error reading CSV with " ++ encoding ++ ": " ++ msg.
Proof.
  induction todo as [|e todo IH]; intros shown text H; cbn [load_loop] in H.
  - left. exact H.
  - destruct (file e) as [df| |msg] eqn:F.
    + left. exact H.
    + apply IH in H. destruct H as [H|(enc & m & I & Q & T)]; [left; exact H|].
      right. exists enc, m. repeat split; [right; exact I|exact Q|exact T].
    + apply IH in H. destruct H as [H|(enc & m & I & Q & T)].
      * apply in_app_or in H. destruct H as [H|[<-|[]]]; [left; exact H|].
        right. exists e, msg. repeat split; [left; reflexivity|exact F].
      * right. exists enc, m. repeat split; [right; exact I|exact Q|exact T].
Qed.

(** X14: every error [load_csv_file] shows is the message of an encoding that
    failed with something else than [UnicodeDecodeError]; a decoding error is
    passed over in silence, and without a file nothing is shown. *)
Theorem load_csv_file_errors (file : option uploaded_file) (text : string) :
  In text (snd (load_csv_file file)) ->
  exists f encoding msg,
    file = Some f /\ In encoding encodings /\ f encoding = Failed msg
    /\ text = "Error reading CSV with " ++ encoding ++ ": " ++ msg.
Proof.
  destruct file as [f|]; cbn [load_csv_file snd]; [|intros []].
  intros H. apply load_loop_shown in H. destruct H as [[]|(e & m & I & Q & T)].
  exists f, e, m. auto.
Qed.

Lemma load_csv_file_errors_witness :
  exists f encoding msg,
    Some (fun e : string => Failed "No columns to parse from file") = Some f
    /\ In encoding encodings
    /\ f encoding = Failed msg
    /\ "Error reading CSV with utf-8: No columns to parse from file"
       = "Error reading CSV with " ++ encoding ++ ": " ++ msg.
Proof.
  apply (load_csv_file_errors
           (Some (fun e : string => Failed "No columns to parse from file"))
           "Error reading CSV with utf-8: No columns to parse from file").
  simpl. auto.
Defined.

Lemma load_loop_some (file : uploaded_file) (todo shown : list string) (df : DataFrame) :
  fst (load_loop file todo shown) = Some df ->
  exists raw, df = normalize_column_names raw.
Proof.
  revert shown. induction todo as [|e todo IH]; intros shown H; cbn [load_loop] in H.
  - discriminate H.
  - destruct (file e) as [raw| |msg]; [|eapply IH; exact H|eapply IH; exact H].
    cbn [fst] in H. inversion H. eauto.
Qed.

Lemma loaded_labels_are_normal (file : option uploaded_file) (df : DataFrame) :
  fst (load_csv_file file) = Some df ->
  forall col, In col (columns df) -> normal_label (fst col).
Proof.
  destruct file as [f|]; cbn [load_csv_file fst]; [|discriminate].
  intros H col Hc. apply load_loop_some in H. destruct H as [raw ->].
  unfold normalize_column_names in Hc. cbn [columns] in Hc.
  apply in_map_iff in Hc. destruct Hc as ([name cells] & <- & _).
  cbn [fst]. apply normalize_label_normal.
Qed.
End UtilsMore.

(** ** More on the normaliser *)

Lemma lstrip_blank_prefix (pad s : string) :
  all_in isspace pad = true -> lstrip (pad ++ s) = lstrip s.
Proof.
  induction pad as [|c pad IH]; [reflexivity|]. cbn [all_in append lstrip].
  intros H. apply andb_prop in H. destruct H as [Hc Hp]. rewrite Hc. apply IH, Hp.
Qed.

Lemma rstrip_blank (pad : string) : all_in isspace pad = true -> rstrip pad = "".
Proof.
  induction pad as [|c pad IH]; [reflexivity|]. cbn [all_in]. intros H.
  apply andb_prop in H. destruct H as [Hc Hp].
  rewrite rstrip_cons, IH, Hc by exact Hp. reflexivity.
Qed.

Lemma rstrip_blank_suffix (s pad : string) :
  all_in isspace pad = true -> rstrip (s ++ pad) = rstrip s.
Proof.
  intros H. induction s as [|c s IH].
  - cbn [append]. rewrite rstrip_blank by exact H. reflexivity.
  - cbn [append]. rewrite !rstrip_cons, IH. reflexivity.
Qed.

Lemma lstrip_app_clean (s t : string) :
  lstrip s <> "" -> lstrip (s ++ t) = lstrip s ++ t.
Proof.
  induction s as [|c s IH]; [intros H; exfalso; apply H; reflexivity|].
  cbn [append lstrip]. destruct (isspace c); [exact IH|reflexivity].
Qed.

Lemma strip_padding (left right s : string) :
  all_in isspace left = true -> all_in isspace right = true ->
  strip (left ++ s ++ right) = strip s.
Proof.
  intros L R. unfold strip. rewrite lstrip_blank_prefix by exact L.
  destruct (lstrip s) as [|c r] eqn:E.
  - assert (B : forall u, lstrip u = "" -> all_in isspace u = true).
    { induction u as [|d u IH]; [reflexivity|]. cbn [lstrip all_in].
      destruct (isspace d); [exact IH|discriminate]. }
    rewrite rstrip_blank; [reflexivity|].
    assert (A : forall u v, all_in isspace u = true -> all_in isspace v = true ->
                            all_in isspace (lstrip (u ++ v)) = true).
    { induction u as [|d u IH]; intros v U V.
      - cbn [append]. induction v as [|e v IHv]; [reflexivity|].
        cbn [lstrip all_in] in *. apply andb_prop in V. destruct V as [Ve Vv].
        rewrite Ve. apply IHv, Vv.
      - cbn [append lstrip all_in] in *. apply andb_prop in U. destruct U as [Ud Uu].
        rewrite Ud. apply IH; assumption. }
    apply A; [apply B, E|exact R].
  - rewrite lstrip_app_clean by (rewrite E; discriminate).
    rewrite E. apply rstrip_blank_suffix, R.
Qed.

(** X16: whitespace before and after the question does not change what
    [normalize_query] returns. *)
Theorem normalize_query_ignores_padding (left right question : string) :
  all_in isspace left = true -> all_in isspace right = true ->
  normalize_query (left ++ question ++ right) = normalize_query question.
Proof.
  intros L R. unfold normalize_query. rewrite strip_padding by assumption.
  reflexivity.
Qed.

Lemma normalize_query_ignores_padding_witness :
  normalize_query ("  " ++ "Top 5 by revenue" ++ " ")
  = normalize_query "Top 5 by revenue".
Proof.
  apply (normalize_query_ignores_padding "  " " " "Top 5 by revenue"); reflexivity.
Defined.

Lemma replace_absent (old new s : string) :
  contains old s = false -> replace s old new = s.
Proof.
  unfold replace. induction s as [|c s IH]; [reflexivity|].
  cbn [contains replace_from]. intros H. apply orb_false_iff in H.
  destruct H as [P C]. rewrite P, IH by exact C. reflexivity.
Qed.

(** X17: Pattern 8 leaves a text alone when none of the five spaced
    abbreviations occurs in it. *)
Theorem pattern_8_without_abbreviation (question : string) :
  (forall old new, In (old, new) replacements -> contains old question = false) ->
  pattern_8 question = question.
Proof.
  intros H. unfold pattern_8.
  assert (G : forall l, incl l replacements ->
                        fold_left (fun q on => replace q (fst on) (snd on)) l question
                        = question).
  { induction l as [|[old new] l IH]; intros I; [reflexivity|].
    cbn [fold_left fst snd]. rewrite replace_absent.
    - apply IH. intros x Hx. apply I. right. exact Hx.
    - apply (H old new), I. left. reflexivity. }
  apply G, incl_refl.
Qed.

Lemma pattern_8_without_abbreviation_witness :
  pattern_8 "show rows where salary > 80000" = "show rows where salary > 80000".
Proof.
  apply (pattern_8_without_abbreviation "show rows where salary > 80000").
  intros old new H. simpl in H.
  repeat (destruct H as [H|H]; [inversion H; reflexivity|]). destruct H.
Defined.

Lemma prefix_append (p t : string) : prefix p (p ++ t) = true.
Proof.
  induction p as [|c p IH]; [apply prefix_empty|]. cbn [append].
  rewrite prefix_cons. destruct (ascii_dec c c); [exact IH|congruence].
Qed.

(** The rules other than Pattern 0b leave a "how many ..." question alone. *)
Ltac skip_with L := rewrite L; cbn [bind].

(** X18: a question that begins "how many " and does not match Pattern 0
    becomes "count total number of" and the rest of the text, every
    "how many " removed; no rule between Pattern 0b and Pattern 7 touches it,
    Pattern 7 prefixes "show " when the question holds one of its four
    words, and Pattern 8 runs last. *)
Theorem how_many_total (question t : string) :
  lower (strip question) = "how many " ++ t ->
  re_match how_many_grouped (lower (strip question)) = None ->
  normalize_query question
  = Ok (pattern_8
          ((if existsb (fun word => contains word (lower (strip question)))
                       filter_words
            then "show " else "")
           ++ "count total number of "
           ++ strip (replace (lower (strip question)) "how many " ""))).
Proof.
  intros E N. unfold normalize_query, pattern_0. rewrite N.
  rewrite E.
  unfold startswith. rewrite prefix_append. cbn [bind].
  skip_with how_many_skips_0c. skip_with how_many_skips_0d.
  skip_with how_many_skips_0e. skip_with how_many_skips_0f.
  skip_with how_many_skips_0g. skip_with how_many_skips_0h.
  skip_with how_many_skips_0i. skip_with how_many_skips_0j.
  skip_with how_many_skips_1. skip_with how_many_skips_2.
  skip_with how_many_skips_3. skip_with how_many_skips_4.
  skip_with how_many_skips_5. skip_with how_many_skips_6.
  unfold pattern_7. rewrite how_many_no_action. cbn [negb].
  destruct (existsb _ filter_words); reflexivity.
Qed.

Lemma how_many_total_witness :
  normalize_query "How many employees?" = Ok "count total number of employees?".
Proof.
  apply (how_many_total "How many employees?" "employees?"); reflexivity.
Defined.

(** ** More on the orchestrator *)

Section QueryMore.
Import Query.
Variable str_exn : exn -> string.

(** X20: the text handed to the agent always holds one of the seven cue
    words, in whatever case, and enhancing it again changes nothing. *)
Theorem enhance_has_cue (question : string) :
  existsb (fun word => contains word (lower (enhance question))) cue_words = true
  /\ enhance (enhance question) = enhance question.
Proof.
  assert (C : existsb (fun word => contains word (lower (enhance question)))
                      cue_words = true).
  { unfold enhance.
    destruct (existsb (fun word => contains word (lower question)) cue_words) eqn:E.
    - exact E.
    - reflexivity. }
  split; [exact C|].
  unfold enhance at 1. rewrite C. reflexivity.
Qed.

Lemma query_result_has_shape (self : DataAnalysisAgent) (question : string) :
  let r := query str_exn self question in
  (success r = true <-> error r = None)
  /\ (success r = false -> result r = VNone)
  /\ (success r = true -> no_output (result r) = false).
Proof.
  cbn zeta. unfold query.
  destruct (agent self) as [invoke|];
    [|cbn; repeat split; congruence].
  destruct (effective_question question) as [sent|e];
    [|cbn; repeat split; congruence].
  destruct (invoke (enhance sent)) as [v|msg];
    [|cbn; repeat split; congruence].
  cbn [success error result]. repeat split; try congruence.
  intros _. destruct (no_output (extract_output v)) eqn:E; [reflexivity|exact E].
Qed.

(** X21: in every result of [query], success goes with no error text and
    failure with one; a failure carries no result, and a successful result is
    never [None] nor a blank string. *)
Theorem query_result_shape (self : DataAnalysisAgent) (question : string) :
  let r := query str_exn self question in
  (success r = true <-> error r = None)
  /\ (success r = false -> result r = VNone)
  /\ (success r = true -> no_output (result r) = false).
Proof. apply query_result_has_shape. Qed.

Lemma length_take (n : nat) (s : string) : String.length (take n s) <= n.
Proof.
  unfold take. revert n. induction s as [|c s IH]; intros [|n]; simpl; try lia.
  specialize (IH n). lia.
Qed.

Lemma length_append (s t : string) :
  String.length (s ++ t) = String.length s + String.length t.
Proof. induction s as [|c s IH]; simpl; [reflexivity|]. rewrite IH. reflexivity. Qed.

(** X22: unless it lists the columns, the error text [query] reports has at
    most 225 characters. *)
Theorem clean_error_length (columns : list string) (error_msg : string) :
  contains "Could not parse LLM output" error_msg = true
  \/ contains "column" (lower error_msg) && contains "not found" (lower error_msg)
     = false ->
  String.length (clean_error columns error_msg) <= 225.
Proof.
  intros H. unfold clean_error.
  destruct (contains "Could not parse LLM output" error_msg).
  { vm_compute. lia. }
  destruct H as [H|H]; [discriminate|]. rewrite H.
  destruct (contains "parsing" (lower error_msg)).
  { vm_compute. lia. }
  destruct (200 <? len error_msg)%Z eqn:L.
  - rewrite length_append. pose proof (length_take 200 error_msg).
    change (String.length "... (Try a simpler query)") with 25. lia.
  - apply Z.ltb_ge in L. unfold len in L. lia.
Qed.

Lemma clean_error_length_witness :
  String.length (clean_error ["name"] "Connection reset by peer") <= 225.
Proof.
  apply (clean_error_length ["name"] "Connection reset by peer").
  right. reflexivity.
Defined.

Lemma threshold_nonneg (question : string) :
  (0 <= Float.mul (Float.of_int (len question)) (Float.literal 7 10))%Q.
Proof.
  unfold Float.mul, Float.of_int. apply round_nonneg.
  apply Qmult_le_0_compat.
  - apply round_nonneg. change 0%Q with (inject_Z 0). apply inject_Z_le.
    unfold len. lia.
  - vm_compute. discriminate.
Qed.

(** X23: a question that is not empty is never replaced by an empty
    normalised form. *)
Theorem effective_question_not_empty (question sent : string) :
  question <> "" ->
  effective_question question = Ok sent ->
  sent <> "".
Proof.
  intros N. unfold effective_question.
  destruct (normalize_query question) as [n|e]; cbn [bind]; [|discriminate].
  destruct (accepts n question) eqn:A; intros H; inversion H; subst; [|exact N].
  unfold accepts in A. apply andb_prop in A. destruct A as [_ G].
  unfold Float.int_gt, Float.ltb in G. apply negb_true_iff in G.
  intros ->. pose proof (threshold_nonneg question) as T.
  apply Qle_bool_iff in T. change (inject_Z (len "")) with 0%Q in G. congruence.
Qed.

Lemma effective_question_not_empty_witness :
  "sort by revenue descending and show first 5 rows" <> "".
Proof.
  apply (effective_question_not_empty "top 5 by revenue"
           "sort by revenue descending and show first 5 rows").
  - discriminate.
  - vm_compute. reflexivity.
Defined.
End QueryMore.

(** ** The handlers *)

Section AppFacts.
Import Utils App.

Lemma validate_accepts (d : DataFrame) :
  fst (validate_dataframe (Some d)) = true ->
  1 <= index_len d /\ 1 <= List.length (columns d) /\ has_value d.
Proof.
  unfold validate_dataframe, empty.
  destruct (Nat.eqb (index_len d) 0) eqn:R; [discriminate|].
  destruct (Nat.eqb (List.length (columns d)) 0) eqn:C; [discriminate|].
  cbn [orb]. destruct (isnull_all_all d) eqn:N; [discriminate|]. intros _.
  apply Nat.eqb_neq in R, C. repeat split; try lia.
  unfold isnull_all_all in N.
  destruct (forallb_forall (fun col => forallb isnull (snd col)) (columns d)) as [_ F].
  destruct (existsb (fun col => existsb (fun c => negb (isnull c)) (snd col))
                    (columns d)) eqn:X.
  - apply existsb_exists in X. destruct X as (col & Hcol & X).
    apply existsb_exists in X. destruct X as (c & Hc & X).
    exists col, c. repeat split; try assumption. apply negb_true_iff, X.
  - exfalso. rewrite F in N; [discriminate|].
    intros col Hcol. apply forallb_forall. intros c Hc.
    destruct (isnull c) eqn:I; [reflexivity|]. exfalso.
    assert (T : existsb (fun col => existsb (fun c => negb (isnull c)) (snd col))
                        (columns d) = true); [|congruence].
    apply existsb_exists. exists col. split; [exact Hcol|].
    apply existsb_exists. exists c. split; [exact Hc|]. rewrite I. reflexivity.
Qed.

Lemma validate_accepts_reason (d : option DataFrame) :
  fst (validate_dataframe d) = true -> validate_dataframe d = (true, "").
Proof.
  unfold validate_dataframe. destruct d as [d|]; [|discriminate].
  destruct (empty d); [discriminate|].
  destruct (Nat.eqb _ 0); [discriminate|].
  destruct (isnull_all_all d); [discriminate|reflexivity].
Qed.

(** X25: a visit to the upload box with a file either stores the loaded,
    validated frame and marks the data as loaded, or leaves the session as
    it was and shows at least one error. *)
Theorem upload_loads_or_explains (file : uploaded_file) (st : session_state) :
  let st' := fst (render_data_upload (Some file) st) in
  let shown := snd (render_data_upload (Some file) st) in
  (exists d, fst (load_csv_file (Some file)) = Some d
             /\ validate_dataframe (Some d) = (true, "")
             /\ st' = {| df := Some d; data_loaded := true |})
  \/ (st' = st /\ shown <> []).
Proof.
  cbn zeta. unfold render_data_upload.
  destruct (load_csv_file (Some file)) as [[d|] shown] eqn:L; cbn [fst snd].
  - destruct (validate_dataframe (Some d)) as [[|] msg] eqn:V; cbn [fst snd].
    + left. exists d. repeat split.
      apply validate_accepts_reason. rewrite V. reflexivity.
    + right. split; [reflexivity|]. destruct shown; discriminate.
  - right. split; [reflexivity|]. destruct shown; discriminate.
Qed.

Lemma upload_keeps_usable (file : option uploaded_file) (st : session_state) :
  usable st -> usable (fst (render_data_upload file st)).
Proof.
  intros U. destruct file as [f|]; [|exact U].
  unfold render_data_upload.
  destruct (load_csv_file (Some f)) as [[d|] shown] eqn:L; cbn [fst]; [|exact U].
  destruct (validate_dataframe (Some d)) as [[|] msg] eqn:V; cbn [fst]; [|exact U].
  intros _. exists d. split; [reflexivity|].
  destruct (validate_accepts d) as (R & C & H); [rewrite V; reflexivity|].
  split; [exact R|]. split; [exact C|]. split; [exact H|].
  intros col Hc.
  apply (loaded_labels_are_normal (Some f) d); [rewrite L; reflexivity|exact Hc].
Qed.

(** X26: whatever was uploaded before, when the session says that data is
    loaded its frame has a row, a column and a value, and each of its labels
    holds no blank and is changed neither by [lower] nor by [strip]. *)
Theorem loaded_session_is_usable (files : list (option uploaded_file)) :
  data_loaded (after_uploads files) = true ->
  exists d, df (after_uploads files) = Some d
            /\ 1 <= index_len d /\ 1 <= List.length (columns d) /\ has_value d
            /\ forall col, In col (columns d) -> normal_label (fst col).
Proof.
  unfold after_uploads.
  assert (G : forall st, usable st ->
                usable (fold_left (fun st file => fst (render_data_upload file st))
                                  files st)).
  { induction files as [|f files IH]; intros st U; [exact U|].
    cbn [fold_left]. apply IH, upload_keeps_usable, U. }
  apply (G initial_state). intros D. discriminate D.
Qed.

Lemma loaded_session_is_usable_witness :
  exists d,
    df (after_uploads
          [Some (fun _ => Parsed {| index_len := 1;
                                    columns := [("Name", [Value "ann"])] |})])
    = Some d
    /\ 1 <= index_len d /\ 1 <= List.length (columns d) /\ has_value d
    /\ forall col, In col (columns d) -> normal_label (fst col).
Proof.
  apply (loaded_session_is_usable
           [Some (fun _ => Parsed {| index_len := 1;
                                     columns := [("Name", [Value "ann"])] |})]).
  reflexivity.
Defined.
End AppFacts.

Section HistoryFacts.
Import Tracker App.
Variable str_exn : exn -> string.

Lemma on_analyze_coherent (agent : Query.DataAnalysisAgent)
      (now question : string) (h : history) :
  Forall coherent h -> Forall coherent (on_analyze str_exn agent now question h).
Proof.
  intros F. unfold on_analyze.
  destruct (String.eqb question "") eqn:E; [exact F|].
  unfold log_query. apply Forall_app. split; [exact F|].
  constructor; [|constructor]. split; cbn [success error query].
  - apply (query_result_has_shape str_exn agent question).
  - apply String.eqb_neq, E.
Qed.

(** X27: in every history built by asking questions and clearing, an entry
    has an error text exactly when it failed, and its question is not
    empty. *)
Theorem logged_entries_coherent (events : list event) (q : entry) :
  In q (after_events str_exn events) ->
  (success q = true <-> error q = None) /\ query q <> "".
Proof.
  unfold after_events.
  assert (G : forall h, Forall coherent h ->
                Forall coherent
                  (fold_left (fun h ev =>
                     match ev with
                     | Ask agent now question => on_analyze str_exn agent now question h
                     | ClearHistory => clear_history h
                     end) events h)).
  { induction events as [|ev events IH]; intros h F; [exact F|].
    cbn [fold_left]. apply IH. destruct ev as [agent now question|].
    - apply on_analyze_coherent, F.
    - constructor. }
  intros H. specialize (G [] (Forall_nil _)).
  rewrite Forall_forall in G. apply (G q H).
Qed.

(** X28: the "Recent Queries" panel lists the five newest entries, or all of
    them when there are fewer, newest first. *)
Theorem recent_panel_newest_first (h : history) :
  recent_panel h = firstn 5 (rev h).
Proof.
  unfold recent_panel, get_total_queries.
  destruct h as [|q h]; [reflexivity|].
  replace (0 <? Z.of_nat (List.length (q :: h)))%Z with true
    by (symmetry; apply Z.ltb_lt; simpl List.length; lia).
  destruct (recent_positive 5 (q :: h) ltac:(lia)) as [E _].
  rewrite E. unfold last_entries. rewrite firstn_rev. reflexivity.
Qed.
End HistoryFacts.

Lemma logged_entries_coherent_witness :
  (false = true <-> Some "Agent not initialized. Please upload a CSV first." = None)
  /\ "show data" <> "".
Proof.
  apply (logged_entries_coherent (fun _ => "")
           [Ask {| Query.agent := None; Query.df_columns := [] |} "t1" "show data"]
           {| Tracker.timestamp := "t1"; Tracker.query := "show data";
              Tracker.success := false;
              Tracker.error := Some "Agent not initialized. Please upload a CSV first." |}).
  left. reflexivity.
Defined.

(** ** The relative error of rounding *)

Section RoundingError.
Import Float.
Local Open Scope Q_scope.

Lemma rne_near (y : Q) : y - 1 <= inject_Z (rne y) /\ inject_Z (rne y) <= y + 1.
Proof.
  pose proof (Qfloor_le y) as F1. pose proof (Qlt_floor y) as F2.
  pose proof (rne_ge_floor y) as R1. pose proof (rne_le_succ_floor y) as R2.
  apply inject_Z_le in R1, R2. rewrite inject_Z_plus in F2, R2.
  change (inject_Z 1) with 1 in *. split; lra.
Qed.

Lemma round_pos_near (x : Q) :
  0 < x ->
  x * (1 - (1 # 4503599627370496)) <= round_pos x
  /\ round_pos x <= x * (1 + (1 # 4503599627370496)).
Proof.
  intros Hx. destruct (scaled_range x Hx) as [L _].
  unfold round_pos. set (e := (ilog2 x - 52)%Z) in *.
  pose proof (two_pow_pos e) as Pe.
  pose proof (scaled_pos x e Hx) as Xy.
  set (y := x / 2 ^ e) in *.
  destruct (rne_near y) as [N1 N2].
  assert (U : 2 ^ e <= x * (1 # 4503599627370496)).
  { rewrite Xy. change (2 ^ 52) with 4503599627370496 in L.
    assert (T : 2 ^ e * 1 <= 2 ^ e * (y * (1 # 4503599627370496))).
    { apply Qmult_le_l; [exact Pe|]. lra. }
    setoid_replace (y * 2 ^ e * (1 # 4503599627370496))
      with (2 ^ e * (y * (1 # 4503599627370496))) by ring.
    lra. }
  assert (A : (y - 1) * 2 ^ e <= inject_Z (rne y) * 2 ^ e).
  { apply Qmult_le_r; [exact Pe|exact N1]. }
  assert (B : inject_Z (rne y) * 2 ^ e <= (y + 1) * 2 ^ e).
  { apply Qmult_le_r; [exact Pe|exact N2]. }
  assert (A' : (y - 1) * 2 ^ e == x - 2 ^ e) by (rewrite Xy; ring).
  assert (B' : (y + 1) * 2 ^ e == x + 2 ^ e) by (rewrite Xy; ring).
  split; lra.
Qed.

(** Rounding changes a non-negative value by at most one part in [2^52]. *)
Lemma round_near (x : Q) :
  0 <= x ->
  x * (1 - (1 # 4503599627370496)) <= round x
  /\ round x <= x * (1 + (1 # 4503599627370496)).
Proof.
  intros Hx. unfold round. destruct x as [[|p|p] q]; cbn [Qnum].
  - assert (Z0 : (0 # q) == 0) by reflexivity. rewrite Z0. split; lra.
  - rewrite Qred_correct. apply round_pos_near. reflexivity.
  - exfalso. unfold Qle in Hx. simpl in Hx. lia.
Qed.
End RoundingError.

(** ** The success rate against the exact percentage *)

Section ExactRate.
Import Tracker.



End ExactRate.

Section Acceptance.
Import Query.

Lemma threshold_near (lq : Z) :
  (0 <= lq)%Z ->
  let t := Float.mul (Float.of_int lq) (Float.literal 7 10) in
  (inject_Z lq * (3152519739159345 # 4503599627370496) <= t
   /\ t <= inject_Z lq * (3152519739159349 # 4503599627370496))%Q.
Proof.
  intros H. cbn zeta. unfold Float.mul, Float.of_int.
  assert (N : (0 <= inject_Z lq)%Q).
  { change 0%Q with (inject_Z 0). apply inject_Z_le, H. }
  destruct (round_near (inject_Z lq) N) as [A1 A2].
  pose proof (round_nonneg _ N) as A0.
  set (r := Float.round (inject_Z lq)) in *.
  replace (Float.literal 7 10) with (3152519739159347 # 4503599627370496)%Q
    by (vm_compute; reflexivity).
  assert (P : (0 <= r * (3152519739159347 # 4503599627370496))%Q) by lra.
  destruct (round_near _ P) as [B1 B2].
  split; lra.
Qed.

(** X24: for a question of fewer than [2^47] characters, a different
    normalised form longer than 70% of it is used and one shorter than 70%
    is not; only a form of exactly 70% depends on the rounding of the
    product. *)
Theorem acceptance_off_the_boundary (normalized question : string) :
  (len question < 2 ^ 47)%Z ->
  ((7 * len question < 10 * len normalized)%Z -> normalized <> question ->
   accepts normalized question = true)
  /\ ((10 * len normalized < 7 * len question)%Z ->
      accepts normalized question = false).
Proof.
  intros B. unfold accepts, Float.int_gt, Float.ltb.
  assert (Q0 : (0 <= len question)%Z) by (unfold len; lia).
  destruct (threshold_near (len question) Q0) as [T1 T2]. cbn zeta in T1, T2.
  set (t := Float.mul (Float.of_int (len question)) (Float.literal 7 10)) in *.
  assert (Bq : (inject_Z (len question) < 140737488355328)%Q).
  { change 140737488355328%Q with (inject_Z (2 ^ 47)). apply inject_Z_lt, B. }
  assert (Nq : (0 <= inject_Z (len question))%Q).
  { change 0%Q with (inject_Z 0). apply inject_Z_le, Q0. }
  split.
  - intros G N.
    apply String.eqb_neq in N. rewrite N. cbn [negb andb].
    apply negb_true_iff.
    destruct (Qle_bool (inject_Z (len normalized)) t) eqn:C; [|reflexivity].
    apply Qle_bool_iff in C. exfalso.
    assert (G' : (7 * len question + 1 <= 10 * len normalized)%Z) by lia.
    apply inject_Z_le in G'.
    rewrite inject_Z_plus, !inject_Z_mult in G'.
    change (inject_Z 7) with 7%Q in G'. change (inject_Z 10) with 10%Q in G'.
    change (inject_Z 1) with 1%Q in G'.
    lra.
  - intros G. apply andb_false_iff. right. apply negb_false_iff.
    apply Qle_bool_iff.
    assert (G' : (10 * len normalized + 1 <= 7 * len question)%Z) by lia.
    apply inject_Z_le in G'.
    rewrite inject_Z_plus, !inject_Z_mult in G'.
    change (inject_Z 7) with 7%Q in G'. change (inject_Z 10) with 10%Q in G'.
    change (inject_Z 1) with 1%Q in G'.
    lra.
Qed.

Lemma acceptance_off_the_boundary_witness :
  accepts "sort by revenue descending and show first 5 rows" "top 5 by revenue" = true
  /\ accepts "show x" "tell me tell me tell me x" = false.
Proof.
  split.
  - apply (acceptance_off_the_boundary
             "sort by revenue descending and show first 5 rows" "top 5 by revenue");
      [vm_compute; reflexivity|vm_compute; reflexivity|discriminate].
  - apply (acceptance_off_the_boundary "show x" "tell me tell me tell me x");
      vm_compute; reflexivity.
Defined.
End Acceptance.

(** ** Pattern 6 *)

Lemma mem_cases (s : string) (l : list string) :
  mem s l = true -> In s l.
Proof.
  unfold mem. intros H. apply existsb_exists in H. destruct H as (x & I & E).
  apply String.eqb_eq in E. subst x. exact I.
Qed.

Ltac idiom H :=
  apply mem_cases in H; simpl in H;
  repeat (destruct H as [H|H];
          [unfold normalize_query; rewrite <- H; reflexivity|]);
  destruct H.

(** X19: the idioms of Pattern 6 are recognised whatever the letter case and
    the surrounding whitespace, and each gives its fixed command. *)
Theorem idioms_any_case (question : string) :
  (mem (lower (strip question))
       ["oldest"; "who is oldest"; "oldest employee"; "who is the oldest"] = true ->
   normalize_query question = Ok "show the row where age is maximum")
  /\ (mem (lower (strip question))
          ["youngest"; "who is youngest"; "youngest employee"; "who is the youngest"]
      = true ->
      normalize_query question = Ok "show the row where age is minimum")
  /\ (mem (lower (strip question))
          ["best performer"; "best employee"; "highest performer"; "who is the best"]
      = true ->
      normalize_query question = Ok "show the row where performance_score is maximum").
Proof.
  repeat split; intros H; idiom H.
Qed.

Lemma idioms_any_case_witness :
  normalize_query "  Who Is The OLDEST " = Ok "show the row where age is maximum".
Proof.
  apply (proj1 (idioms_any_case "  Who Is The OLDEST ")). reflexivity.
Defined.

Section Wrappers.
Import Tracker Utils.
Local Open Scope list_scope.

(** X2: for a count [n >= 1], [get_recent_queries] returns the last
    [min n (len history)] entries, in the order they were logged. *)
Theorem recent_returns_last_n (n : Z) (h : history) :
  (1 <= n)%Z ->
  get_recent_queries n h = last_entries (Z.to_nat n) h
  /\ List.length (get_recent_queries n h) = Nat.min (Z.to_nat n) (List.length h).
Proof. apply recent_positive. Qed.

Lemma recent_returns_last_n_witness :
  get_recent_queries 2 (run [Log "t1" "q1" true None; Log "t2" "q2" true None;
                             Log "t3" "q3" false (Some "e")])
  = last_entries 2 (run [Log "t1" "q1" true None; Log "t2" "q2" true None;
                         Log "t3" "q3" false (Some "e")])
  /\ List.length (get_recent_queries 2
                    (run [Log "t1" "q1" true None; Log "t2" "q2" true None;
                          Log "t3" "q3" false (Some "e")]))
     = Nat.min 2 3.
Proof.
  apply (recent_returns_last_n 2
           (run [Log "t1" "q1" true None; Log "t2" "q2" true None;
                 Log "t3" "q3" false (Some "e")])). lia.
Defined.

(** X9: after [normalize_column_names] no label has a blank, and neither
    [lower] nor [strip] changes a label: it is lower-cased and has no
    whitespace at either end. *)
Theorem normalized_labels_normal (df : DataFrame) (col : string * list cell) :
  In col (columns (normalize_column_names df)) -> normal_label (fst col).
Proof.
  unfold normalize_column_names. cbn [columns]. intros H.
  apply in_map_iff in H. destruct H as ([name cells] & <- & _).
  apply normalize_label_normal.
Qed.

Lemma normalized_labels_normal_witness : normal_label "employee_name".
Proof.
  apply (normalized_labels_normal
           {| index_len := 1; columns := [(" Employee Name ", [Value "ann"])] |}
           ("employee_name", [Value "ann"])).
  left. reflexivity.
Defined.

(** X15: every label of a frame that [load_csv_file] returns is in normal
    form: it holds no blank, and neither [lower] nor [strip] changes it. *)
Theorem loaded_labels_normal (file : option uploaded_file) (df : DataFrame) :
  fst (load_csv_file file) = Some df ->
  forall col, In col (columns df) -> normal_label (fst col).
Proof. apply loaded_labels_are_normal. Qed.

Lemma loaded_labels_normal_witness : normal_label "first_name".
Proof.
  exact (loaded_labels_normal
           (Some (fun _ => Parsed {| index_len := 1;
                                     columns := [("First Name", [Value "ann"])] |}))
           {| index_len := 1; columns := [("first_name", [Value "ann"])] |}
           eq_refl ("first_name", [Value "ann"]) (or_introl eq_refl)).
Defined.
End Wrappers.

(** ** Instances *)

Lemma failures_complement_successes_witness :
  In {| Tracker.timestamp := "t2"; Tracker.query := "q2";
        Tracker.success := false; Tracker.error := Some "e2" |}
     (Tracker.get_failure_queries
        (Tracker.run [Tracker.Log "t1" "q1" true None;
                      Tracker.Log "t2" "q2" false (Some "e2")])).
Proof.
  apply (proj2 (failures_complement_successes
                  (Tracker.run [Tracker.Log "t1" "q1" true None;
                                Tracker.Log "t2" "q2" false (Some "e2")]))).
  split; [right; left; reflexivity|reflexivity].
Defined.

Lemma load_csv_file_none_witness :
  fst (Utils.load_csv_file (Some (fun _ => Utils.UnicodeDecodeError))) = None.
Proof.
  apply (load_csv_file_none (Some (fun _ => Utils.UnicodeDecodeError))).
  intros e _. reflexivity.
Defined.

Lemma query_result_shape_witness :
  Query.no_output
    (Query.result
       (Query.query (fun _ => "")
          {| Query.agent := Some (fun _ => Query.Returns (Query.VStr "  "));
             Query.df_columns := ["name"] |}
          "show data"))
  = false.
Proof.
  apply (query_result_shape (fun _ => "")
           {| Query.agent := Some (fun _ => Query.Returns (Query.VStr "  "));
              Query.df_columns := ["name"] |}
           "show data").
  reflexivity.
Defined.
